(** * WiTrackv2: the streaming aggregation engine of [softap_analytics.py]

    A shallow embedding of [CrowdAnalytics] (device registry, aggregate
    counters, snapshot and report), of the two line parsers
    [parse_device_line] and [parse_stats_line] and of the reader loop,
    then of [CrowdData] and the reader of [webdashboard.py], followed by
    the properties of the specification that concern them and by further
    properties of the code.

    Modelling conventions.
    - A line is a [string]: a sequence of code points below 256.  On that
      range the regular-expression classes of Python's [re] in [str] mode
      are [\d] = [0-9] and [\w] = ASCII letters, digits, underscore and
      the Latin-1 letters and numerics listed in [is_word].
    - [datetime.now()] is an input: every call that reads the clock takes
      the value read, a [Z] counting microseconds on the naive local
      time line.  A [timedelta] is the difference of two such values and
      [total_seconds] turns it into a rational number of seconds.
    - Python [float] results (rates, means, dwell times) are modelled by
      exact rationals [Q]; rounding, and the [inf] of a float product
      beyond the float range, are outside the model.  The exceptions of
      the arithmetic are in the model: [ZeroDivisionError] and
      [OverflowError] of the division of integers.
    - Python [int] is [Z].  [int(s)] follows CPython 3.11 with its default
      limit of 4300 digits, above which it raises [ValueError].
    - [np.mean] on a list of Python integers is a parameter of the
      report: beyond the 64-bit range its result, or its exception,
      depends on the version of numpy.
    - [print] and the flushing of the CSV file are not modelled; the rows
      handed to the CSV writer are. *)

From Stdlib Require Import ZArith QArith Qminmax Ascii String Lia.
From stdpp Require Import base option list sorting gmap strings sets.

#[local] Set Warnings "-clear-no-such-hyp".

Local Open Scope string_scope.
Local Open Scope list_scope.
Local Open Scope Z_scope.

(** ** Configuration *)

Definition MAX_DATA_POINTS : nat := 120.

(** ** Characters, regular expressions and [int] *)

Module Re.

Definition code (c : ascii) : N := N_of_ascii c.

Definition in_range (lo hi : N) (c : ascii) : bool :=
  ((lo <=? code c) && (code c <=? hi))%N.

(** [\d] *)
Definition is_digit (c : ascii) : bool := in_range 48 57 c.

(** [\w] *)
Definition is_word (c : ascii) : bool :=
  is_digit c || in_range 65 90 c || in_range 97 122 c || (code c =? 95)%N
  || (code c =? 170)%N || in_range 178 179 c || (code c =? 181)%N
  || in_range 185 186 c || in_range 188 190 c
  || in_range 192 214 c || in_range 216 246 c || in_range 248 255 c.

(** [[0-9A-F:]] under [re.IGNORECASE] *)
Definition is_hex_colon (c : ascii) : bool :=
  in_range 48 58 c || in_range 65 70 c || in_range 97 102 c.

(** [str.upper] on one character; it is applied to hexadecimal digits
    and colons only, where it is the ASCII mapping. *)
Definition upper_char (c : ascii) : ascii :=
  if in_range 97 122 c then ascii_of_N (code c - 32) else c.

Fixpoint upper (s : string) : string :=
  match s with
  | EmptyString => EmptyString
  | String c s' => String (upper_char c) (upper s')
  end.

(** A literal at the head of [s]; the rest of [s] when it is there.
    With [ci] the comparison ignores case. *)
Fixpoint literal (ci : bool) (lit s : string) : option string :=
  match lit, s with
  | EmptyString, _ => Some s
  | String a lit', String b s' =>
      if (if ci then Ascii.eqb (upper_char a) (upper_char b) else Ascii.eqb a b)
      then literal ci lit' s' else None
  | String _ _, EmptyString => None
  end.

(** The longest prefix of [s] whose characters are in the class [p]:
    what a greedy [[p]*] consumes. *)
Fixpoint greedy (p : ascii -> bool) (s : string) : string :=
  match s with
  | String c s' => if p c then String c (greedy p s') else EmptyString
  | EmptyString => EmptyString
  end.

(** [[p]+] as a captured group: [None] when no character matches. *)
Definition plus (p : ascii -> bool) (s : string) : option string :=
  match greedy p s with
  | EmptyString => None
  | g => Some g
  end.

(** [re.search]: the matcher [m] is tried at every position, leftmost
    first; the group of the first success is returned. *)
Fixpoint search (m : string -> option string) (s : string) : option string :=
  match m s with
  | Some g => Some g
  | None =>
      match s with
      | EmptyString => None
      | String _ s' => search m s'
      end
  end.

(** [lit in s] *)
Definition contains (lit s : string) : bool :=
  match search (fun t => match literal false lit t with
                         | Some _ => Some EmptyString
                         | None => None
                         end) s with
  | Some _ => true
  | None => false
  end.

(** [label([p]+)] *)
Definition labelled (ci : bool) (label : string) (p : ascii -> bool)
    (s : string) : option string :=
  match literal ci label s with
  | Some rest => plus p rest
  | None => None
  end.

(** [label(-?\d+)]: the sign is taken when it is there; without digits
    after it the match fails at this position, since the position
    without the sign starts with [-] too. *)
Definition labelled_signed (label : string) (s : string) : option string :=
  match literal false label s with
  | Some (String "-" rest) =>
      match plus is_digit rest with
      | Some g => Some (String "-" g)
      | None => None
      end
  | Some rest => plus is_digit rest
  | None => None
  end.

Definition digit_value (c : ascii) : Z := Z.of_N (code c) - 48.

Fixpoint digits_value (acc : Z) (s : string) : option Z :=
  match s with
  | EmptyString => Some acc
  | String c s' =>
      if is_digit c then digits_value (10 * acc + digit_value c) s' else None
  end.

(** [sys.get_int_max_str_digits()], by default. *)
Definition max_str_digits : nat := 4300.

(** [int(s)] for the strings the patterns capture: an optional minus
    sign and at least one decimal digit.  [None] is [ValueError]: no
    digit, or more than [max_str_digits] digits, leading zeros counted
    and the sign not. *)
Definition int (s : string) : option Z :=
  match s with
  | EmptyString => None
  | String "-" EmptyString => None
  | String "-" s' =>
      if (String.length s' <=? max_str_digits)%nat
      then Z.opp <$> digits_value 0 s' else None
  | _ =>
      if (String.length s <=? max_str_digits)%nat
      then digits_value 0 s else None
  end.

End Re.

(** ** Time *)

(** [timedelta.total_seconds()] of a difference of two clock values. *)
Definition total_seconds (d : Z) : Q := d # 1000000.

(** [now.strftime('%Y-%m-%d %H:00')]: the clock value truncated to the
    hour.  The key is kept as the index of the hour on the time line; the
    printed form is a one-to-one rendering of it that sorts the same way. *)
Definition hour_key (now : Z) : Z := now / 3600000000.

(** ** Containers *)

(** [deque(maxlen=n).append(x)]: the element goes to the right end and,
    when the length then exceeds [n], the leftmost element is dropped. *)
Definition deque_append {A} (maxlen : nat) (d : list A) (x : A) : list A :=
  let d' := d ++ [x] in
  if (maxlen <? length d')%nat then tail d' else d'.

(** A [dict] whose iteration order matters: an association list in
    insertion order. *)
Module Dict.

Fixpoint get (k : Z) (d : list (Z * Z)) (default : Z) : Z :=
  match d with
  | [] => default
  | (k', v) :: d' => if k =? k' then v else get k d' default
  end.

(** [d[k] = v]: an existing key keeps its place, a new key goes last. *)
Fixpoint set (k v : Z) (d : list (Z * Z)) : list (Z * Z) :=
  match d with
  | [] => [(k, v)]
  | (k', v') :: d' => if k =? k' then (k', v) :: d' else (k', v') :: set k v d'
  end.

(** [max(d.items(), key=lambda x: x[1])] continued from a current
    maximum: a later item replaces it only when its count is strictly
    greater. *)
Fixpoint max_from (best : Z * Z) (d : list (Z * Z)) : Z * Z :=
  match d with
  | [] => best
  | x :: d' => max_from (if snd best <? snd x then x else best) d'
  end.

End Dict.

(** ** Arithmetic that can fault *)

Inductive exn := ZeroDivisionError | OverflowError.

(** A number computed, or the exception raised instead. *)
Inductive computed :=
  | Value (q : Q)
  | Raise (e : exn).

(** The least magnitude that is rounded beyond the largest float: half
    a unit in the last place above it, the tie going to the even side. *)
Definition float_overflow : Z := 2 ^ 1024 - 2 ^ 970.

(** [a / b] on integers.  Python rounds the quotient to a float: it
    raises [ZeroDivisionError] for a zero divisor and [OverflowError]
    when the rounded quotient is beyond the float range; a quotient too
    small for a float raises nothing.  The value is the exact quotient. *)
Definition truediv (a b : Z) : computed :=
  if b =? 0 then Raise ZeroDivisionError
  else if float_overflow * Z.abs b <=? Z.abs a then Raise OverflowError
  else Value (inject_Z a / inject_Z b)%Q.

(** [(total_connects / total_probes * 100) if total_probes > 0 else 0],
    the expression of [add_statistics] and of the report. *)
Definition connection_rate (total_connects total_probes : Z) : computed :=
  if 0 <? total_probes
  then match truediv total_connects total_probes with
       | Value q => Value (q * 100)%Q
       | Raise e => Raise e
       end
  else Value 0%Q.

Definition Qsum (l : list Q) : Q := foldr Qplus 0%Q l.

(** [np.mean(l)]; [None] stands for the [nan] of an empty input. *)
Definition np_mean (l : list Q) : option Q :=
  match l with
  | [] => None
  | _ => Some (Qsum l / inject_Z (Z.of_nat (length l)))%Q
  end.

(** [max(l)] on numbers, continued from a current maximum. *)
Fixpoint Qmax_from (best : Q) (l : list Q) : Q :=
  match l with
  | [] => best
  | x :: l' => Qmax_from (if Qle_bool x best then best else x) l'
  end.

(** ** Data storage: [CrowdAnalytics] *)

(** The per-device dictionary built by [add_device]. *)
Record DeviceRecord := {
  first_seen : Z;
  last_seen : Z;
  rssi_history : list Z;
  status : string;
  connect_time : option Z;
  dwell_time : Q
}.

(** A reference to a device dictionary: its index in the object store. *)
Abbreviation ref := nat (only parsing).

Record CsvRow := {
  row_timestamp : Z;
  row_connected : Z;
  row_nearby : Z;
  row_total_probes : Z;
  row_total_connections : Z;
  row_connection_rate : Q;
  row_unique_devices : nat
}.

(** The fields of the object.  [devices_by_mac] holds references: the
    device dictionaries live in [objects], so that whoever holds a
    reference sees the later updates of the dictionary.  [csv_writer] is
    [None] before [start_logging] and then the rows written so far. *)
Record CrowdAnalytics := {
  timestamps : list Z;
  connected_counts : list Z;
  nearby_counts : list Z;
  total_devices : list Z;
  objects : list DeviceRecord;
  devices_by_mac : gmap string ref;
  hourly_stats : list (Z * Z);
  total_probes : Z;
  total_connections : Z;
  all_timestamps : list Z;
  all_device_counts : list Z;
  all_connection_attempts : list Z;
  csv_writer : option (list CsvRow);
  session_start : Z
}.

(** [CrowdAnalytics.__init__], with the clock value it reads. *)
Definition init (now : Z) : CrowdAnalytics := {|
  timestamps := [];
  connected_counts := [];
  nearby_counts := [];
  total_devices := [];
  objects := [];
  devices_by_mac := ∅;
  hourly_stats := [];
  total_probes := 0;
  total_connections := 0;
  all_timestamps := [];
  all_device_counts := [];
  all_connection_attempts := [];
  csv_writer := None;
  session_start := now
|}.

Definition start_logging (st : CrowdAnalytics) : CrowdAnalytics := {|
  timestamps := timestamps st;
  connected_counts := connected_counts st;
  nearby_counts := nearby_counts st;
  total_devices := total_devices st;
  objects := objects st;
  devices_by_mac := devices_by_mac st;
  hourly_stats := hourly_stats st;
  total_probes := total_probes st;
  total_connections := total_connections st;
  all_timestamps := all_timestamps st;
  all_device_counts := all_device_counts st;
  all_connection_attempts := all_connection_attempts st;
  csv_writer := Some [];
  session_start := session_start st
|}.

(** The dictionary of a new device. *)
Definition new_device (now rssi : Z) (st' : string) : DeviceRecord := {|
  first_seen := now;
  last_seen := now;
  rssi_history := [rssi];
  status := st';
  connect_time := if String.eqb st' "CONNECTED" then Some now else None;
  dwell_time := 0%Q
|}.

(** The updates of the [else] branch of [add_device], on the dictionary
    of a known device. *)
Definition update_device (now rssi : Z) (st' : string) (d : DeviceRecord)
    : DeviceRecord := {|
  first_seen := first_seen d;
  last_seen := now;
  rssi_history := rssi_history d ++ [rssi];
  status := st';
  connect_time :=
    if String.eqb st' "CONNECTED" && negb (String.eqb (status d) "CONNECTED")
    then Some now else connect_time d;
  dwell_time := total_seconds (now - first_seen d)
|}.

Definition add_device (now : Z) (mac : string) (rssi : Z) (st' : string)
    (st : CrowdAnalytics) : CrowdAnalytics :=
  let hour := hour_key now in
  let hourly := Dict.set hour (Dict.get hour (hourly_stats st) 0 + 1) (hourly_stats st) in
  let stored :=
    match devices_by_mac st !! mac with
    | None =>
        (objects st ++ [new_device now rssi st'],
         <[mac := length (objects st)]> (devices_by_mac st))
    | Some r =>
        (alter (update_device now rssi st') r (objects st), devices_by_mac st)
    end in
  {|
    timestamps := timestamps st;
    connected_counts := connected_counts st;
    nearby_counts := nearby_counts st;
    total_devices := total_devices st;
    objects := stored.1;
    devices_by_mac := stored.2;
    hourly_stats := hourly;
    total_probes := total_probes st;
    total_connections := total_connections st;
    all_timestamps := all_timestamps st;
    all_device_counts := all_device_counts st;
    all_connection_attempts := all_connection_attempts st;
    csv_writer := csv_writer st;
    session_start := session_start st
  |}.

(** [self.csv_writer.writerow(row)], with [rows] written before. *)
Definition writerow (row : CsvRow) (rows : list CsvRow) (st : CrowdAnalytics)
    : CrowdAnalytics := {|
  timestamps := timestamps st;
  connected_counts := connected_counts st;
  nearby_counts := nearby_counts st;
  total_devices := total_devices st;
  objects := objects st;
  devices_by_mac := devices_by_mac st;
  hourly_stats := hourly_stats st;
  total_probes := total_probes st;
  total_connections := total_connections st;
  all_timestamps := all_timestamps st;
  all_device_counts := all_device_counts st;
  all_connection_attempts := all_connection_attempts st;
  csv_writer := Some (rows ++ [row]);
  session_start := session_start st
|}.

(** How a call ends: it returns, or an exception leaves it; either way
    with the state as the call left it. *)
Inductive outcome :=
  | Returned (st : CrowdAnalytics)
  | Raised (st : CrowdAnalytics).

Definition state_of (o : outcome) : CrowdAnalytics :=
  match o with Returned st | Raised st => st end.

Definition add_statistics (now connected nearby probes connects : Z)
    (st : CrowdAnalytics) : outcome :=
  let st1 := {|
    timestamps := deque_append MAX_DATA_POINTS (timestamps st) now;
    connected_counts := deque_append MAX_DATA_POINTS (connected_counts st) connected;
    nearby_counts := deque_append MAX_DATA_POINTS (nearby_counts st) nearby;
    total_devices := deque_append MAX_DATA_POINTS (total_devices st) (connected + nearby);
    objects := objects st;
    devices_by_mac := devices_by_mac st;
    hourly_stats := hourly_stats st;
    total_probes := probes;
    total_connections := connects;
    all_timestamps := all_timestamps st ++ [now];
    all_device_counts := all_device_counts st ++ [connected + nearby];
    all_connection_attempts := all_connection_attempts st ++ [connects];
    csv_writer := csv_writer st;
    session_start := session_start st
  |} in
  match connection_rate connects probes with
  | Raise _ => Raised st1
  | Value rate =>
      Returned
        match csv_writer st1 with
        | Some rows =>
            writerow {|
              row_timestamp := now;
              row_connected := connected;
              row_nearby := nearby;
              row_total_probes := probes;
              row_total_connections := connects;
              row_connection_rate := rate;
              row_unique_devices := size (devices_by_mac st1)
            |} rows st1
        | None => st1
        end
  end.

(** What [get_plot_data] returns.  The lists and [plot_hourly_stats] are
    new containers.  [plot_devices] is [dict(self.devices_by_mac)]: a new
    dictionary with the same references as values. *)
Record PlotData := {
  plot_timestamps : list Z;
  plot_connected : list Z;
  plot_nearby : list Z;
  plot_total : list Z;
  plot_total_probes : Z;
  plot_total_connections : Z;
  plot_total_unique : nat;
  plot_hourly_stats : list (Z * Z);
  plot_devices : gmap string ref
}.

Definition get_plot_data (st : CrowdAnalytics) : PlotData := {|
  plot_timestamps := timestamps st;
  plot_connected := connected_counts st;
  plot_nearby := nearby_counts st;
  plot_total := total_devices st;
  plot_total_probes := total_probes st;
  plot_total_connections := total_connections st;
  plot_total_unique := size (devices_by_mac st);
  plot_hourly_stats := hourly_stats st;
  plot_devices := devices_by_mac st
|}.

(** [data['devices'][mac]] read by the holder of a snapshot while the
    object store is [objs]. *)
Definition plot_device (objs : list DeviceRecord) (data : PlotData)
    (mac : string) : option DeviceRecord :=
  match plot_devices data !! mac with
  | Some r => objs !! r
  | None => None
  end.

(** [self.devices_by_mac[mac]] *)
Definition device (st : CrowdAnalytics) (mac : string) : option DeviceRecord :=
  match devices_by_mac st !! mac with
  | Some r => objects st !! r
  | None => None
  end.

(** [self.devices_by_mac.values()] *)
Definition device_values (st : CrowdAnalytics) : list DeviceRecord :=
  omap (fun kr => objects st !! kr.2) (map_to_list (devices_by_mac st)).

(** The report; [peak_hour = None] is the ['N/A'] of the source. *)
Record Report := {
  report_session_start : Z;
  session_duration_hours : Q;
  total_unique_devices : nat;
  report_total_probes : Z;
  successful_connections : Z;
  connection_success_rate : Q;
  peak_hour : option Z;
  peak_hour_count : Z;
  avg_devices : Q;
  avg_dwell_time_seconds : Q;
  max_dwell_time_seconds : Q;
  avg_rssi : Q;
  hourly_breakdown : list (Z * Z)
}.

(** [np.mean(l) if l else d] *)
Definition mean_or (d : Q) (l : list Q) : option Q :=
  match l with
  | [] => Some d
  | _ => np_mean l
  end.

(** [np.mean(l) if l else d] on integers, with [np.mean] as given. *)
Definition mean_int_or (np_mean_int : list Z → option Q) (d : Q) (l : list Z)
    : option Q :=
  match l with
  | [] => Some d
  | _ => np_mean_int l
  end.

(** [generate_analytics_report]; [None] when an exception leaves it.
    [np_mean_int] is [np.mean] on lists of integers, [None] for an
    exception.  An hour key is a non-empty text, so [peak_hour[0]] is
    false only for the [(None, 0)] of an empty [hourly_stats]. *)
Definition generate_analytics_report (np_mean_int : list Z → option Q)
    (now : Z) (st : CrowdAnalytics) : option Report :=
  let session_duration := (total_seconds (now - session_start st) / 3600)%Q in
  let peak :=
    match hourly_stats st with
    | [] => (None, 0)
    | x :: d => let best := Dict.max_from x d in (Some best.1, best.2)
    end in
  let dwell_times := dwell_time <$> device_values st in
  let max_dwell :=
    match dwell_times with
    | [] => 0%Q
    | x :: l => Qmax_from x l
    end in
  let all_rssi := concat (rssi_history <$> device_values st) in
  avg_devices_ ← mean_int_or np_mean_int 0%Q (all_device_counts st);
  avg_dwell ← mean_or 0%Q dwell_times;
  success_rate ← match connection_rate (total_connections st) (total_probes st) with
                 | Value r => Some r
                 | Raise _ => None
                 end;
  avg_rssi_ ← mean_int_or np_mean_int (-100)%Q all_rssi;
  Some {|
    report_session_start := session_start st;
    session_duration_hours := session_duration;
    total_unique_devices := size (devices_by_mac st);
    report_total_probes := total_probes st;
    successful_connections := total_connections st;
    connection_success_rate := success_rate;
    peak_hour := peak.1;
    peak_hour_count := peak.2;
    avg_devices := avg_devices_;
    avg_dwell_time_seconds := avg_dwell;
    max_dwell_time_seconds := max_dwell;
    avg_rssi := avg_rssi_;
    hourly_breakdown := hourly_stats st
  |}.

(** ** Serial reader *)

Definition mac_match : string -> option string :=
  Re.search (Re.labelled true "MAC:" Re.is_hex_colon).
Definition rssi_match : string -> option string :=
  Re.search (Re.labelled_signed "RSSI:").
Definition status_match : string -> option string :=
  Re.search (Re.labelled false "STATUS:" Re.is_word).

(** The arguments [parse_device_line] passes to [add_device], when it
    gets that far. *)
Definition device_fields (line : string) : option (string * Z * string) :=
  if negb (Re.contains "[DEVICE]" line) then None
  else
    match mac_match line, rssi_match line, status_match line with
    | Some m, Some r, Some s =>
        match Re.int r with
        | Some rssi => Some (Re.upper m, rssi, s)
        | None => None
        end
    | _, _, _ => None
    end.

(** [parse_device_line]: the value returned and the state afterwards;
    [now] is the clock value [add_device] reads. *)
Definition parse_device_line (now : Z) (line : string) (st : CrowdAnalytics)
    : bool * CrowdAnalytics :=
  match device_fields line with
  | Some (mac, rssi, st') => (true, add_device now mac rssi st' st)
  | None => (false, st)
  end.

Definition unsigned_match (label : string) : string -> option string :=
  Re.search (Re.labelled false label Re.is_digit).

Definition stats_fields (line : string) : option (Z * Z * Z * Z) :=
  if negb (Re.contains "[STATS]" line) then None
  else
    match unsigned_match "CONNECTED:" line, unsigned_match "NEARBY:" line,
          unsigned_match "TOTAL_PROBES:" line, unsigned_match "TOTAL_CONNECTS:" line with
    | Some c, Some n, Some p, Some k =>
        match Re.int c, Re.int n, Re.int p, Re.int k with
        | Some connected, Some nearby, Some probes, Some connects =>
            Some (connected, nearby, probes, connects)
        | _, _, _, _ => None
        end
    | _, _, _, _ => None
    end.

(** [parse_stats_line]: an exception of [add_statistics] is caught, the
    state stays as the call left it and the result is [False]. *)
Definition parse_stats_line (now : Z) (line : string) (st : CrowdAnalytics)
    : bool * CrowdAnalytics :=
  match stats_fields line with
  | Some (connected, nearby, probes, connects) =>
      match add_statistics now connected nearby probes connects st with
      | Returned st' => (true, st')
      | Raised st' => (false, st')
      end
  | None => (false, st)
  end.

(** One line as the reader loop sees it, with the clock values the two
    parsers read if they get to their call. *)
Record reading := {
  text : string;
  clock_device : Z;
  clock_stats : Z
}.

(** The body of the loop of [serial_reader_thread] for one line. *)
Definition serial_reader_step (st : CrowdAnalytics) (r : reading) : CrowdAnalytics :=
  match text r with
  | EmptyString => st
  | line =>
      let '(is_device, st1) := parse_device_line (clock_device r) line st in
      let '(is_stats, st2) := parse_stats_line (clock_stats r) line st1 in
      st2
  end.

(** [serial_reader_thread] over the lines read until it is stopped. *)
Definition serial_reader_thread (rs : list reading) (st : CrowdAnalytics)
    : CrowdAnalytics :=
  foldl serial_reader_step (start_logging st) rs.

(** ** Sequences of calls *)

Inductive call :=
  | AddDevice (now : Z) (mac : string) (rssi : Z) (st' : string)
  | AddStatistics (now connected nearby probes connects : Z)
  | StartLogging.

Definition apply_call (st : CrowdAnalytics) (c : call) : CrowdAnalytics :=
  match c with
  | AddDevice now mac rssi st' => add_device now mac rssi st' st
  | AddStatistics now connected nearby probes connects =>
      state_of (add_statistics now connected nearby probes connects st)
  | StartLogging => start_logging st
  end.

Definition run (st : CrowdAnalytics) (cs : list call) : CrowdAnalytics :=
  foldl apply_call st cs.

(** The calls one line leads to. *)
Definition calls_of_reading (r : reading) : list call :=
  match text r with
  | EmptyString => []
  | line =>
      match device_fields line with
      | Some (mac, rssi, st') => [AddDevice (clock_device r) mac rssi st']
      | None => []
      end ++
      match stats_fields line with
      | Some (connected, nearby, probes, connects) =>
          [AddStatistics (clock_stats r) connected nearby probes connects]
      | None => []
      end
  end.

(** * Vocabulary of the properties *)

(** [np.mean] where the integers are small: the exact mean. *)
Definition exact_mean (l : list Z) : option Q := np_mean (inject_Z <$> l).

(** The quotient [a / b] is within the float range. *)
Definition fits_float (a b : Z) : Prop := Z.abs a < float_overflow * Z.abs b.

#[global] Instance fits_float_dec a b : Decision (fits_float a b).
Proof. unfold fits_float. apply _. Defined.

(** Every reference of [devices_by_mac] points into the store and no two
    identifiers share a dictionary. *)
Record store_ok (st : CrowdAnalytics) : Prop := {
  refs_valid : ∀ mac r, devices_by_mac st !! mac = Some r → (r < length (objects st))%nat;
  refs_apart : ∀ mac1 mac2 r,
    devices_by_mac st !! mac1 = Some r → devices_by_mac st !! mac2 = Some r →
    mac1 = mac2
}.

(** The [add_device] calls for [mac], in order: clock value, RSSI and
    status of each. *)
Definition device_calls (mac : string) (cs : list call) : list (Z * Z * string) :=
  omap (fun c => match c with
                 | AddDevice now mac' rssi s =>
                     if decide (mac' = mac) then Some (now, rssi, s) else None
                 | _ => None
                 end) cs.

Definition device_times (mac : string) (cs : list call) : list Z :=
  (fun e => e.1.1) <$> device_calls mac cs.

Definition device_statuses (mac : string) (cs : list call) : list (Z * string) :=
  (fun e => (e.1.1, e.2)) <$> device_calls mac cs.

(** One call on the dictionary it names, from no dictionary at all. *)
Definition touch (o : option DeviceRecord) (e : Z * Z * string)
    : option DeviceRecord :=
  Some match o with
       | Some d => update_device e.1.1 e.1.2 e.2 d
       | None => new_device e.1.1 e.1.2 e.2
       end.

Definition call_time (c : call) : option Z :=
  match c with
  | AddDevice now _ _ _ => Some now
  | AddStatistics now _ _ _ _ => Some now
  | StartLogging => None
  end.

(** The clock values read by a sequence of calls, in order. *)
Definition call_times (cs : list call) : list Z := omap call_time cs.

Definition is_connected (s : string) : bool := String.eqb s "CONNECTED".

(** In words: the clock values at which a run of consecutive CONNECTED
    statuses of one device begins, given whether the status before the
    first entry was CONNECTED. *)
Fixpoint connection_starts (connected : bool) (h : list (Z * string)) : list Z :=
  match h with
  | [] => []
  | (t, s) :: h' =>
      (if is_connected s && negb connected then [t] else [])
      ++ connection_starts (is_connected s) h'
  end.

(** The last [n] elements of [l]. *)
Definition last_n {A} (n : nat) (l : list A) : list A := drop (length l - n) l.

(** The [add_statistics] calls, in order. *)
Definition stats_calls (cs : list call) : list (Z * Z * Z) :=
  omap (fun c => match c with
                 | AddStatistics now connected nearby _ _ => Some (now, connected, nearby)
                 | _ => None
                 end) cs.

(** The identifiers [add_device] is called with. *)
Definition call_macs (cs : list call) : list string :=
  omap (fun c => match c with
                 | AddDevice _ mac _ _ => Some mac
                 | _ => None
                 end) cs.

(** The normalized identifiers of the lines that parse as device lines. *)
Definition device_ids (rs : list reading) : list string :=
  omap (fun r => (fun f => f.1.1) <$> device_fields (text r)) rs.

Definition line_nearby : string :=
  "[DEVICE] MAC:AA:BB:CC:DD:EE:01 | RSSI:-40 | STATUS:NEARBY".
Definition line_connected : string :=
  "[DEVICE] MAC:AA:BB:CC:DD:EE:01 | RSSI:-38 | STATUS:CONNECTED".

Fixpoint all_chars (p : ascii -> bool) (s : string) : bool :=
  match s with
  | EmptyString => true
  | String c s' => p c && all_chars p s'
  end.


(** * Further code: text report and the web dashboard *)

(** ** The hourly breakdown of [generate_text_report] *)

(** The order of Python on the items [(hour, count)]: by hour, then by
    count. *)
Definition item_le (a b : Z * Z) : Prop := a.1 < b.1 ∨ (a.1 = b.1 ∧ a.2 ≤ b.2).

#[global] Instance item_le_dec : RelDecision item_le.
Proof. intros a b. unfold item_le. apply _. Defined.

(** [sorted(report['hourly_breakdown'].items())]: the items in the order
    in which the report prints them. *)
Definition hourly_breakdown_lines (rep : Report) : list (Z * Z) :=
  merge_sort item_le (hourly_breakdown rep).

(** ** The web dashboard: [CrowdData] of [webdashboard.py] *)

Module Web.

Definition MAX_DATA_POINTS : nat := 300.

(** The per-device dictionary of [CrowdData.add_device]. *)
Record DeviceInfo := {
  first_seen : Z;
  last_seen : Z;
  rssi : Z;
  status : string;
  detections : Z
}.

Record CrowdData := {
  timestamps : list Z;
  connected : list Z;
  nearby : list Z;
  devices : gmap string DeviceInfo;
  total_probes : Z;
  total_connections : Z;
  rssi_history : list Z;
  hourly_counts : list (Z * Z)
}.

(** [CrowdData.__init__] *)
Definition init : CrowdData := {|
  timestamps := [];
  connected := [];
  nearby := [];
  devices := ∅;
  total_probes := 0;
  total_connections := 0;
  rssi_history := [];
  hourly_counts := []
|}.

(** [now.strftime('%H:00')]: the hour of the day, from 0 to 23; the
    clock counts from a midnight. *)
Definition hour_key (now : Z) : Z := (now / 3600000000) mod 24.

Definition add_device (now : Z) (mac : string) (rssi' : Z) (st' : string)
    (st : CrowdData) : CrowdData :=
  let hour := hour_key now in
  {|
    timestamps := timestamps st;
    connected := connected st;
    nearby := nearby st;
    devices :=
      match devices st !! mac with
      | None =>
          <[mac := {| first_seen := now; last_seen := now; rssi := rssi';
                      status := st'; detections := 1 |}]> (devices st)
      | Some d =>
          <[mac := {| first_seen := first_seen d; last_seen := now; rssi := rssi';
                      status := st'; detections := detections d + 1 |}]> (devices st)
      end;
    total_probes := total_probes st;
    total_connections := total_connections st;
    rssi_history := deque_append 1000 (rssi_history st) rssi';
    hourly_counts := Dict.set hour (Dict.get hour (hourly_counts st) 0 + 1) (hourly_counts st)
  |}.

Definition add_stats (now connected' nearby' probes connects : Z)
    (st : CrowdData) : CrowdData := {|
  timestamps := deque_append MAX_DATA_POINTS (timestamps st) now;
  connected := deque_append MAX_DATA_POINTS (connected st) connected';
  nearby := deque_append MAX_DATA_POINTS (nearby st) nearby';
  devices := devices st;
  total_probes := probes;
  total_connections := connects;
  rssi_history := rssi_history st;
  hourly_counts := hourly_counts st
|}.

(** The columns of the frame [get_dataframe] builds. *)
Record DataFrame := {
  col_timestamp : list Z;
  col_connected : list Z;
  col_nearby : list Z;
  col_total : list Z
}.

(** [get_dataframe]; [None] is the [ValueError] of [pd.DataFrame] for
    columns of different lengths.  [zip] stops at the shorter list. *)
Definition get_dataframe (st : CrowdData) : option DataFrame :=
  let total := zip_with Z.add (connected st) (nearby st) in
  if decide (length (timestamps st) = length (connected st)
             ∧ length (connected st) = length (nearby st)
             ∧ length (nearby st) = length total)
  then Some {| col_timestamp := timestamps st; col_connected := connected st;
               col_nearby := nearby st; col_total := total |}
  else None.

(** [parse_device]: the same patterns as [parse_device_line], without
    the exception handler.  [None] is the [ValueError] of [int], raised
    while the arguments of [add_device] are evaluated. *)
Definition parse_device (now : Z) (line : string) (st : CrowdData)
    : option (bool * CrowdData) :=
  if negb (Re.contains "[DEVICE]" line) then Some (false, st)
  else
    match mac_match line, rssi_match line, status_match line with
    | Some m, Some r, Some s =>
        rssi' ← Re.int r;
        Some (true, add_device now (Re.upper m) rssi' s st)
    | _, _, _ => Some (false, st)
    end.

(** [parse_stats]; [None] is the [ValueError] of one of the four [int]
    calls, raised before [add_stats] is called. *)
Definition parse_stats (now : Z) (line : string) (st : CrowdData)
    : option (bool * CrowdData) :=
  if negb (Re.contains "[STATS]" line) then Some (false, st)
  else
    match unsigned_match "CONNECTED:" line, unsigned_match "NEARBY:" line,
          unsigned_match "TOTAL_PROBES:" line, unsigned_match "TOTAL_CONNECTS:" line with
    | Some c, Some n, Some p, Some k =>
        connected' ← Re.int c;
        nearby' ← Re.int n;
        probes ← Re.int p;
        connects ← Re.int k;
        Some (true, add_stats now connected' nearby' probes connects st)
    | _, _, _, _ => Some (false, st)
    end.

(** The loop of [serial_reader] over the lines [rs] that the port
    delivers.  The handler of the exceptions is outside the loop: when
    [parse_device] or [parse_stats] raises, the thread ends with the
    state as it is, and no later line is read. *)
Fixpoint serial_reader_loop (rs : list reading) (st : CrowdData) : CrowdData :=
  match rs with
  | [] => st
  | r :: rs' =>
      match text r with
      | EmptyString => serial_reader_loop rs' st
      | line =>
          match parse_device (clock_device r) line st with
          | Some (_, st1) =>
              match parse_stats (clock_stats r) line st1 with
              | Some (_, st2) => serial_reader_loop rs' st2
              | None => st1
              end
          | None => st
          end
      end
  end.

Definition serial_reader (rs : list reading) : CrowdData :=
  serial_reader_loop rs init.

End Web.

(** ** Vocabulary of the further properties *)

(** [sum(l)] *)
Definition Zsum (l : list Z) : Z := foldr Z.add 0 l.

(** The clock values of the [add_device] calls, in order. *)
Definition detection_times (cs : list call) : list Z :=
  omap (fun c => match c with
                 | AddDevice now _ _ _ => Some now
                 | _ => None
                 end) cs.

(** The totals of the [add_statistics] calls, in order. *)
Definition stats_totals (cs : list call) : list (Z * Z) :=
  omap (fun c => match c with
                 | AddStatistics _ _ _ probes connects => Some (probes, connects)
                 | _ => None
                 end) cs.

(** The rate of a statistics line is computed, not raised. *)
Definition rate_defined (connects probes : Z) : Prop :=
  match connection_rate connects probes with
  | Value _ => True
  | Raise _ => False
  end.

#[global] Instance rate_defined_dec connects probes :
  Decision (rate_defined connects probes).
Proof. unfold rate_defined. destruct (connection_rate connects probes); apply _. Defined.

(** The state [st] and the CSV rows [rows] written so far agree with the
    statistics [parsed] from the lines read, each with the clock value of
    its call: the unbounded lists have an entry for every one of them,
    the CSV file a row for those whose rate was computed. *)
Definition csv_ok (st : CrowdAnalytics) (rows : list CsvRow)
    (parsed : list (Z * (Z * Z * Z * Z))) : Prop :=
  csv_writer st = Some rows
  ∧ all_timestamps st = parsed.*1
  ∧ all_device_counts st = (fun e => e.2.1.1.1 + e.2.1.1.2) <$> parsed
  ∧ all_connection_attempts st = (fun e => e.2.2) <$> parsed
  ∧ (fun row => (row_timestamp row,
                 (row_connected row, row_nearby row,
                  row_total_probes row, row_total_connections row))) <$> rows
    = filter (fun e => rate_defined e.2.2 e.2.1.2) parsed
  ∧ Forall (fun row =>
              connection_rate (row_total_connections row) (row_total_probes row)
              = Value (row_connection_rate row)
              ∧ (row_unique_devices row ≤ size (devices_by_mac st))%nat) rows.

(** The number of digit characters of a captured number: its sign is
    not counted.  [int] takes at most [Re.max_str_digits] of them. *)
Definition digit_count (g : string) : nat :=
  match g with
  | String "-" g' => String.length g'
  | _ => String.length g
  end.

Definition int_accepts (g : string) : Prop :=
  (digit_count g ≤ Re.max_str_digits)%nat.

(** [[0-9A-F:]], case-sensitive. *)
Definition is_upper_hex_colon (c : ascii) : bool :=
  Re.in_range 48 58 c || Re.in_range 65 70 c.

(** The device and statistics readings among the lines read. *)
Definition device_readings (rs : list reading) : list (Z * string * Z * string) :=
  omap (fun r => (fun f => (clock_device r, f.1.1, f.1.2, f.2)) <$> device_fields (text r)) rs.

Definition stats_readings (rs : list reading) : list (Z * (Z * Z * Z * Z)) :=
  omap (fun r => (fun f => (clock_stats r, f)) <$> stats_fields (text r)) rs.

(** The device readings that name [mac]. *)
Definition readings_for (mac : string) (rs : list reading)
    : list (Z * string * Z * string) :=
  filter (fun e => e.1.1.2 = mac) (device_readings rs).

(** [int] raises in [Web.parse_device], or in [Web.parse_stats], on
    this line. *)
Definition device_raises (line : string) : bool :=
  Re.contains "[DEVICE]" line
  && match mac_match line, rssi_match line, status_match line with
     | Some _, Some r, Some _ => bool_decide (Re.int r = None)
     | _, _, _ => false
     end.

Definition stats_raises (line : string) : bool :=
  Re.contains "[STATS]" line
  && match unsigned_match "CONNECTED:" line, unsigned_match "NEARBY:" line,
           unsigned_match "TOTAL_PROBES:" line, unsigned_match "TOTAL_CONNECTS:" line with
     | Some c, Some n, Some p, Some k =>
         bool_decide (Re.int c = None ∨ Re.int n = None
                      ∨ Re.int p = None ∨ Re.int k = None)
     | _, _, _, _ => false
     end.

(** The lines [Web.serial_reader] gives to [parse_device]: all lines up
    to the first one on which a conversion raises, that one included. *)
Fixpoint web_device_lines (rs : list reading) : list reading :=
  match rs with
  | [] => []
  | r :: rs' =>
      r :: (if device_raises (text r) || stats_raises (text r) then []
            else web_device_lines rs')
  end.

(** The lines it gives to [parse_stats]: the same, without a last line
    on which [parse_device] raised. *)
Fixpoint web_stats_lines (rs : list reading) : list reading :=
  match rs with
  | [] => []
  | r :: rs' =>
      if device_raises (text r) then []
      else r :: (if stats_raises (text r) then [] else web_stats_lines rs')
  end.

(** What a line on which no conversion raises does to the state of the
    web dashboard. *)
Definition web_step (st : Web.CrowdData) (r : reading) : Web.CrowdData :=
  let st1 := match device_fields (text r) with
             | Some (mac, rssi, s) => Web.add_device (clock_device r) mac rssi s st
             | None => st
             end in
  match stats_fields (text r) with
  | Some (cn, nb, pr, co) => Web.add_stats (clock_stats r) cn nb pr co st1
  | None => st1
  end.

(** One [CrowdData.add_device] call on the dictionary it names. *)
Definition web_touch (o : option Web.DeviceInfo) (e : Z * string * Z * string)
    : option Web.DeviceInfo :=
  Some match o with
       | None =>
           {| Web.first_seen := e.1.1.1; Web.last_seen := e.1.1.1; Web.rssi := e.1.2;
              Web.status := e.2; Web.detections := 1 |}
       | Some d =>
           {| Web.first_seen := Web.first_seen d; Web.last_seen := e.1.1.1;
              Web.rssi := e.1.2; Web.status := e.2;
              Web.detections := Web.detections d + 1 |}
       end.

(** * Properties *)

(** ** The guarded division *)


Lemma truediv_value a b :
  b ≠ 0 → fits_float a b → truediv a b = Value (inject_Z a / inject_Z b)%Q.
Proof.
  intros Hb Hfit. unfold truediv, fits_float in *.
  destruct (Z.eqb_spec b 0); [done|].
  destruct (Z.leb_spec (float_overflow * Z.abs b) (Z.abs a)); [lia|done].
Qed.

Lemma connection_rate_pos connects probes :
  0 < probes → fits_float connects probes →
  connection_rate connects probes
  = Value (inject_Z connects / inject_Z probes * 100)%Q.
Proof.
  intros Hp Hfit. unfold connection_rate.
  destruct (Z.ltb_spec 0 probes); [|lia].
  rewrite truediv_value by (done || lia). done.
Qed.

Lemma connection_rate_overflow connects probes :
  0 < probes → ¬ fits_float connects probes →
  connection_rate connects probes = Raise OverflowError.
Proof.
  intros Hp Hfit. unfold connection_rate, truediv, fits_float in *.
  destruct (Z.ltb_spec 0 probes); [|lia].
  destruct (Z.eqb_spec probes 0); [lia|].
  destruct (Z.leb_spec (float_overflow * Z.abs probes) (Z.abs connects)); [done|lia].
Qed.

Lemma connection_rate_nonpos connects probes :
  probes ≤ 0 → connection_rate connects probes = Value 0%Q.
Proof.
  intros Hp. unfold connection_rate.
  destruct (Z.ltb_spec 0 probes); [lia|done].
Qed.

Lemma connection_rate_cases connects probes :
  (probes ≤ 0 ∧ connection_rate connects probes = Value 0%Q)
  ∨ (0 < probes ∧ fits_float connects probes
     ∧ connection_rate connects probes
       = Value (inject_Z connects / inject_Z probes * 100)%Q)
  ∨ (0 < probes ∧ ¬ fits_float connects probes
     ∧ connection_rate connects probes = Raise OverflowError).
Proof.
  destruct (Z.le_gt_cases probes 0) as [Hp|Hp].
  - left. by split; [|apply connection_rate_nonpos].
  - right. destruct (decide (fits_float connects probes)) as [Hfit|Hfit].
    + left. by split_and!; [| |apply connection_rate_pos].
    + right. by split_and!; [| |apply connection_rate_overflow].
Qed.


(** ** What the mutators leave alone *)

Lemma add_statistics_returns now connected nearby probes connects st r :
  connection_rate connects probes = Value r →
  ∃ st', add_statistics now connected nearby probes connects st = Returned st'.
Proof. intros Hr. unfold add_statistics. rewrite Hr. eauto. Qed.

Lemma add_statistics_raises now connected nearby probes connects st e :
  connection_rate connects probes = Raise e →
  ∃ st', add_statistics now connected nearby probes connects st = Raised st'.
Proof. intros Hr. unfold add_statistics. rewrite Hr. eauto. Qed.

Lemma add_statistics_devices now connected nearby probes connects st :
  let st' := state_of (add_statistics now connected nearby probes connects st) in
  devices_by_mac st' = devices_by_mac st ∧ objects st' = objects st
  ∧ hourly_stats st' = hourly_stats st.
Proof.
  unfold add_statistics.
  destruct (connection_rate connects probes); [|done].
  simpl. by destruct (csv_writer st).
Qed.

Lemma add_statistics_device now connected nearby probes connects st mac :
  device (state_of (add_statistics now connected nearby probes connects st)) mac
  = device st mac.
Proof.
  unfold device.
  destruct (add_statistics_devices now connected nearby probes connects st)
    as (-> & -> & _). done.
Qed.

(** ** The object store *)

Lemma init_store_ok t0 : store_ok (init t0).
Proof. split; simpl; intros *; by rewrite lookup_empty. Qed.

Lemma add_device_store_ok now mac rssi s st :
  store_ok st → store_ok (add_device now mac rssi s st).
Proof.
  intros [Hv Ha]. unfold add_device.
  destruct (devices_by_mac st !! mac) as [r|] eqn:Hm; split; simpl.
  - intros m r' Hr'. rewrite length_alter. eauto.
  - done.
  - intros m r' Hr'. rewrite length_app. simpl.
    apply lookup_insert_Some in Hr' as [[_ <-]|[_ Hr']]; [lia|].
    apply Hv in Hr'. lia.
  - intros m1 m2 r' H1 H2.
    apply lookup_insert_Some in H1 as [[<- <-]|[Hn1 H1]];
      apply lookup_insert_Some in H2 as [[<- E]|[Hn2 H2]]; try done.
    + apply Hv in H2. lia.
    + apply Hv in H1. lia.
    + eauto.
Qed.

Lemma apply_call_store_ok st c : store_ok st → store_ok (apply_call st c).
Proof.
  intros Hok. destruct c as [now mac rssi s|now cn nb pr co|]; simpl.
  - by apply add_device_store_ok.
  - destruct (add_statistics_devices now cn nb pr co st) as (Hd & Ho & _).
    destruct Hok as [Hv Ha]. split; rewrite ?Hd, ?Ho; done.
  - destruct Hok as [Hv Ha]. split; done.
Qed.

Lemma run_store_ok st cs : store_ok st → store_ok (run st cs).
Proof.
  revert st. induction cs as [|c cs IH]; intros st Hok; [done|].
  apply IH. by apply apply_call_store_ok.
Qed.

(** [add_device] on the dictionary of its own identifier. *)
Lemma add_device_device now mac rssi s st :
  store_ok st →
  device (add_device now mac rssi s st) mac
  = Some match device st mac with
         | Some d => update_device now rssi s d
         | None => new_device now rssi s
         end.
Proof.
  intros [Hv Ha]. unfold device, add_device.
  destruct (devices_by_mac st !! mac) as [r|] eqn:Hm; simpl.
  - rewrite Hm, list_lookup_alter_eq.
    destruct (lookup_lt_is_Some_2 (objects st) r (Hv _ _ Hm)) as [d ->]. done.
  - rewrite lookup_insert_eq. by rewrite lookup_app_r, Nat.sub_diag.
Qed.

(** ... and on the dictionaries of the others. *)
Lemma add_device_other now mac rssi s st mac' :
  store_ok st → mac' ≠ mac →
  device (add_device now mac rssi s st) mac' = device st mac'.
Proof.
  intros [Hv Ha] Hne. unfold device, add_device.
  destruct (devices_by_mac st !! mac) as [r|] eqn:Hm; simpl.
  - destruct (devices_by_mac st !! mac') as [r'|] eqn:Hm'; [|done].
    apply list_lookup_alter_ne. intros ->. apply Hne. eauto.
  - rewrite lookup_insert_ne by done.
    destruct (devices_by_mac st !! mac') as [r'|] eqn:Hm'; [|done].
    apply lookup_app_l. eauto.
Qed.

(** ** A device's dictionary as a function of the calls that name it *)

Lemma apply_call_device st c mac :
  store_ok st →
  device (apply_call st c) mac = foldl touch (device st mac) (device_calls mac [c]).
Proof.
  intros Hok. destruct c as [now mac' rssi s|now cn nb pr co|]; simpl.
  - destruct (decide (mac' = mac)) as [->|Hne]; simpl.
    + by rewrite add_device_device.
    + by rewrite add_device_other.
  - apply add_statistics_device.
  - done.
Qed.

Lemma device_calls_app mac cs1 cs2 :
  device_calls mac (cs1 ++ cs2) = device_calls mac cs1 ++ device_calls mac cs2.
Proof. apply omap_app. Qed.

Lemma run_device st cs mac :
  store_ok st →
  device (run st cs) mac = foldl touch (device st mac) (device_calls mac cs).
Proof.
  revert st. induction cs as [|c cs IH]; intros st Hok; [done|].
  change (c :: cs) with ([c] ++ cs).
  rewrite device_calls_app, foldl_app, <- apply_call_device by done.
  apply IH. by apply apply_call_store_ok.
Qed.

Lemma init_device t0 mac : device (init t0) mac = None.
Proof. unfold device. simpl. by rewrite lookup_empty. Qed.

(** ** No dictionary is ever removed or replaced *)

Lemma apply_call_keeps st c mac r :
  devices_by_mac st !! mac = Some r → devices_by_mac (apply_call st c) !! mac = Some r.
Proof.
  intros Hm. destruct c as [now mac' rssi s|now cn nb pr co|]; simpl.
  - unfold add_device.
    destruct (devices_by_mac st !! mac') as [r'|] eqn:Hm'; simpl; [done|].
    rewrite lookup_insert_ne; [done|]. intros ->. congruence.
  - by destruct (add_statistics_devices now cn nb pr co st) as (-> & _).
  - done.
Qed.

Lemma run_keeps st cs mac r :
  devices_by_mac st !! mac = Some r → devices_by_mac (run st cs) !! mac = Some r.
Proof.
  revert st. induction cs as [|c cs IH]; intros st Hm; [done|].
  apply IH. by apply apply_call_keeps.
Qed.

Lemma run_app st cs1 cs2 : run st (cs1 ++ cs2) = run (run st cs1) cs2.
Proof. apply foldl_app. Qed.

(** A snapshot taken after [cs1] and read after [cs1 ++ cs2] shows, for
    the identifiers it has, the dictionaries as they are at the time of
    reading. *)
Lemma plot_device_later st cs1 cs2 mac d :
  plot_device (objects (run st (cs1 ++ cs2))) (get_plot_data (run st cs1)) mac = Some d →
  device (run st (cs1 ++ cs2)) mac = Some d.
Proof.
  unfold plot_device, device. simpl.
  destruct (devices_by_mac (run st cs1) !! mac) as [r|] eqn:Hm; [|done].
  rewrite run_app. by rewrite (run_keeps _ cs2 _ _ Hm).
Qed.

(** ** Clock values *)

Lemma device_times_in_call_times mac cs t :
  t ∈ device_times mac cs → t ∈ call_times cs.
Proof.
  unfold device_times, device_calls, call_times.
  rewrite list_elem_of_fmap. intros ([[now rssi] s] & -> & Hin).
  apply list_elem_of_omap in Hin as (c & Hc & Hsome).
  apply list_elem_of_omap. exists c. split; [done|].
  destruct c; try done. case_decide; naive_solver.
Qed.

Lemma device_times_sorted mac cs :
  StronglySorted Z.le (call_times cs) → StronglySorted Z.le (device_times mac cs).
Proof.
  induction cs as [|c cs IH]; intros Hs; [constructor|].
  assert (StronglySorted Z.le (call_times cs)) as Hcs.
  { unfold call_times in *. simpl in Hs.
    destruct (call_time c); [by inversion Hs|done]. }
  destruct c as [now mac' rssi s|now cn nb pr co|]; try by apply IH.
  unfold device_times, device_calls. simpl.
  case_decide; [|by apply IH]. simpl. constructor; [by apply IH|].
  unfold call_times in Hs. simpl in Hs. inversion Hs as [|? ? _ Hall]; subst.
  rewrite Forall_forall in Hall |- *. intros t Ht.
  apply Hall, device_times_in_call_times with mac. done.
Qed.

Lemma sorted_head_le_last (l : list Z) a b :
  StronglySorted Z.le l → head l = Some a → last l = Some b → a ≤ b.
Proof.
  intros Hs Hh Hl. destruct l as [|x l]; [done|].
  simpl in Hh. injection Hh as ->.
  destruct l as [|y l]; [simpl in Hl; injection Hl as ->; lia|].
  inversion Hs as [|? ? _ Hall]; subst.
  rewrite Forall_forall in Hall. apply Hall.
  rewrite last_cons_cons in Hl. by apply last_Some_elem_of.
Qed.

(** ** First seen, last seen and dwell time *)

Lemma foldl_touch_is_Some o h : h ≠ [] → is_Some (foldl touch o h).
Proof.
  destruct h as [|e h _] using rev_ind; [done|].
  intros _. rewrite foldl_snoc. unfold touch. eauto.
Qed.

Lemma foldl_touch_None h : foldl touch None h = None → h = [].
Proof.
  intros Hn. destruct (decide (h = [])) as [|Hne]; [done|].
  destruct (foldl_touch_is_Some None h Hne) as [d Hd]. congruence.
Qed.

Lemma touched_seen h d :
  foldl touch None h = Some d →
  head (h.*1.*1) = Some (first_seen d) ∧ last (h.*1.*1) = Some (last_seen d)
  ∧ (dwell_time d == total_seconds (last_seen d - first_seen d))%Q
  ∧ last (h.*2) = Some (status d).
Proof.
  revert d. induction h as [|e h IH] using rev_ind; intros d; [done|].
  rewrite foldl_snoc, !fmap_app. simpl. rewrite !last_snoc.
  destruct (foldl touch None h) as [d0|] eqn:Hh; unfold touch; intros [= <-]; simpl.
  - destruct (IH d0 eq_refl) as (Hf & _).
    rewrite head_app, Hf. split_and!; try done.
  - apply foldl_touch_None in Hh as ->. simpl.
    split_and!; try done. unfold total_seconds. by rewrite Z.sub_diag.
Qed.

Lemma total_seconds_nonneg d : 0 ≤ d → (0 <= total_seconds d)%Q.
Proof. intros Hd. unfold total_seconds, Qle. simpl. lia. Qed.

Lemma device_times_fst mac cs : device_times mac cs = (device_calls mac cs).*1.*1.
Proof. unfold device_times. by rewrite <- list_fmap_compose. Qed.

(** C3.  When the clock values read by successive calls do not decrease,
    every device dictionary reached through a snapshot, whether read when
    it was taken or after further calls, has [first_seen <= last_seen]
    and a dwell time equal to [last_seen - first_seen] in seconds, hence
    non-negative.  [first_seen] is the clock value of the first call
    naming the device and [last_seen] that of the latest one. *)
Theorem first_last_dwell_invariant t0 cs1 cs2 mac d :
  Sorted Z.le (call_times (cs1 ++ cs2)) →
  plot_device (objects (run (init t0) (cs1 ++ cs2)))
              (get_plot_data (run (init t0) cs1)) mac = Some d →
  first_seen d ≤ last_seen d
  ∧ (dwell_time d == total_seconds (last_seen d - first_seen d))%Q
  ∧ (0 <= dwell_time d)%Q
  ∧ head (device_times mac (cs1 ++ cs2)) = Some (first_seen d)
  ∧ last (device_times mac (cs1 ++ cs2)) = Some (last_seen d).
Proof.
  intros Hs Hd. apply plot_device_later in Hd.
  rewrite run_device, init_device in Hd by apply init_store_ok.
  apply touched_seen in Hd as (Hf & Hl & Hdw & _).
  assert (first_seen d ≤ last_seen d) as Hle.
  { apply (sorted_head_le_last (device_times mac (cs1 ++ cs2))).
    - apply device_times_sorted, Sorted_StronglySorted; [|done].
      intros x y z. apply Z.le_trans.
    - by rewrite device_times_fst.
    - by rewrite device_times_fst. }
  split_and!; try done.
  - rewrite Hdw. apply total_seconds_nonneg. lia.
  - by rewrite device_times_fst.
  - by rewrite device_times_fst.
Qed.

Lemma first_last_dwell_invariant_witness :
  let d := {| first_seen := 1000000; last_seen := 5000000;
              rssi_history := [-40; -38]; status := "CONNECTED";
              connect_time := Some 5000000;
              dwell_time := total_seconds 4000000 |} in
  first_seen d ≤ last_seen d
  ∧ (dwell_time d == total_seconds (last_seen d - first_seen d))%Q
  ∧ (0 <= dwell_time d)%Q
  ∧ head (device_times "AA:01"
            ([AddDevice 1000000 "AA:01" (-40) "NEARBY"]
             ++ [AddDevice 5000000 "AA:01" (-38) "CONNECTED"]))
    = Some (first_seen d)
  ∧ last (device_times "AA:01"
            ([AddDevice 1000000 "AA:01" (-40) "NEARBY"]
             ++ [AddDevice 5000000 "AA:01" (-38) "CONNECTED"]))
    = Some (last_seen d).
Proof.
  intros d.
  apply (first_last_dwell_invariant 0
           [AddDevice 1000000 "AA:01" (-40) "NEARBY"]
           [AddDevice 5000000 "AA:01" (-38) "CONNECTED"] "AA:01" d).
  - repeat constructor. simpl. lia.
  - vm_compute. reflexivity.
Defined.

(** ** Connect time *)

Lemma connection_starts_snoc b h t s :
  connection_starts b (h ++ [(t, s)])
  = connection_starts b h
    ++ (if is_connected s && negb (default b (is_connected <$> last (h.*2)))
        then [t] else []).
Proof.
  revert b. induction h as [|[t' s'] h IH]; intros b; simpl.
  - by rewrite app_nil_r.
  - rewrite IH, <- app_assoc. do 3 f_equal.
    destruct h as [|e h]; [done|].
    rewrite !fmap_cons, last_cons_cons.
    destruct (last (e.2 :: h.*2)) eqn:E; [done|by apply last_None in E].
Qed.

Lemma connection_starts_nil h :
  connection_starts false h = [] ↔ Forall (fun e => e.2 ≠ "CONNECTED") h.
Proof.
  induction h as [|[t s] h IH]; simpl; [by split|].
  rewrite Forall_cons. simpl. unfold is_connected.
  destruct (String.eqb_spec s "CONNECTED") as [->|Hne]; simpl.
  - split; [done|]. by intros [? _].
  - rewrite IH. split; [by intros ?|by intros [_ ?]].
Qed.

Lemma touched_connect_time h d :
  foldl touch None h = Some d →
  connect_time d = last (connection_starts false ((fun e => (e.1.1, e.2)) <$> h)).
Proof.
  revert d. induction h as [|[[t r] s] h IH] using rev_ind; intros d; [done|].
  rewrite foldl_snoc, fmap_app. simpl. rewrite connection_starts_snoc.
  rewrite <- list_fmap_compose.
  destruct (foldl touch None h) as [d0|] eqn:Hh; unfold touch; intros [= <-]; simpl.
  - destruct (touched_seen h d0 Hh) as (_ & _ & _ & Hst).
    change (snd ∘ (fun e : Z * Z * string => (e.1.1, e.2))) with (@snd (Z * Z) string).
    rewrite Hst. simpl. fold (is_connected s). fold (is_connected (status d0)).
    destruct (is_connected s && negb (is_connected (status d0))).
    + by rewrite last_snoc.
    + rewrite app_nil_r. by apply IH.
  - apply foldl_touch_None in Hh as ->. simpl. fold (is_connected s).
    by destruct (is_connected s).
Qed.

(** C2, as the code has it.  The connect time of a device is the clock
    value at which its latest run of consecutive CONNECTED statuses began:
    it is written once per run, at the call that enters CONNECTED, kept by
    every other call, and written anew when a later run begins.  It is
    [None] exactly when no call for the device carried CONNECTED. *)
Theorem connect_time_latest_run_start t0 cs mac d :
  device (run (init t0) cs) mac = Some d →
  connect_time d = last (connection_starts false (device_statuses mac cs))
  ∧ (connect_time d = None
     ↔ Forall (fun e => e.2 ≠ "CONNECTED") (device_statuses mac cs)).
Proof.
  intros Hd. rewrite run_device, init_device in Hd by apply init_store_ok.
  apply touched_connect_time in Hd. fold (device_statuses mac cs) in Hd.
  split; [done|].
  rewrite Hd, <- connection_starts_nil. apply last_None.
Qed.

Lemma connect_time_latest_run_start_witness :
  let cs := [AddDevice 1 "AA:01" (-40) "CONNECTED";
             AddDevice 2 "AA:01" (-41) "NEARBY";
             AddDevice 3 "AA:01" (-42) "CONNECTED";
             AddDevice 4 "AA:01" (-43) "CONNECTED"] in
  let d := {| first_seen := 1; last_seen := 4;
              rssi_history := [-40; -41; -42; -43]; status := "CONNECTED";
              connect_time := Some 3;
              dwell_time := total_seconds 3 |} in
  connect_time d = last (connection_starts false (device_statuses "AA:01" cs))
  ∧ (connect_time d = None
     ↔ Forall (fun e => e.2 ≠ "CONNECTED") (device_statuses "AA:01" cs)).
Proof.
  intros cs d. apply (connect_time_latest_run_start 0 cs "AA:01" d).
  vm_compute. reflexivity.
Defined.

(** C2, as the specification has it, fails: a connect time once set is
    replaced when the device leaves CONNECTED and enters it again. *)
Lemma connect_time_reset_on_reconnect :
  ¬ (∀ cs c mac d t,
       device (run (init 0) cs) mac = Some d → connect_time d = Some t →
       ∃ d', device (apply_call (run (init 0) cs) c) mac = Some d'
             ∧ connect_time d' = Some t).
Proof.
  intros H.
  destruct (H [AddDevice 1 "AA:01" (-40) "CONNECTED";
               AddDevice 2 "AA:01" (-41) "NEARBY"]
              (AddDevice 3 "AA:01" (-42) "CONNECTED") "AA:01"
              {| first_seen := 1; last_seen := 2; rssi_history := [-40; -41];
                 status := "NEARBY"; connect_time := Some 1;
                 dwell_time := total_seconds 1 |} 1)
    as (d' & Hd' & Ht); [by vm_compute..|].
  vm_compute in Hd'. injection Hd' as <-. discriminate Ht.
Qed.

(** ** Statistics: totals and rate *)

Lemma mean_or_defined d l : ∃ m, mean_or d l = Some m.
Proof. destruct l; simpl; eauto. Qed.

Lemma exact_mean_defined d l : ∃ m, mean_int_or exact_mean d l = Some m.
Proof. destruct l; simpl; eauto. Qed.

(** The report is produced when the rate of the stored totals is
    computed and numpy's mean of the integers returns. *)
Lemma generate_analytics_report_defined np_mean_int now st :
  rate_defined (total_connections st) (total_probes st) →
  is_Some (mean_int_or np_mean_int 0%Q (all_device_counts st)) →
  is_Some (mean_int_or np_mean_int (-100)%Q
             (concat (rssi_history <$> device_values st))) →
  ∃ rep, generate_analytics_report np_mean_int now st = Some rep.
Proof.
  unfold generate_analytics_report, rate_defined. intros Hr [m1 ->] [m2 ->].
  destruct (mean_or_defined 0%Q (dwell_time <$> device_values st)) as [? ->].
  destruct (connection_rate _ _); [|done]. simpl. eauto.
Qed.

Lemma generate_analytics_report_exact now st :
  rate_defined (total_connections st) (total_probes st) →
  ∃ rep, generate_analytics_report exact_mean now st = Some rep.
Proof.
  intros Hr. apply generate_analytics_report_defined; [done|..].
  - destruct (exact_mean_defined 0%Q (all_device_counts st)) as [? ->]. eauto.
  - destruct (exact_mean_defined (-100)%Q
                (concat (rssi_history <$> device_values st))) as [? ->]. eauto.
Qed.



Lemma add_statistics_totals now connected nearby probes connects st :
  let st' := state_of (add_statistics now connected nearby probes connects st) in
  total_probes st' = probes ∧ total_connections st' = connects.
Proof.
  unfold add_statistics.
  destruct (connection_rate connects probes); [|done].
  simpl. by destruct (csv_writer st).
Qed.





(** C6.  After [add_statistics], whether it returned or was left by an
    exception, [total_probes] and [total_connections] are the values it
    was called with, whatever was stored before and whether or not the
    new values are smaller.  It returns unless the division of the rate
    overflows. *)
Theorem add_statistics_overwrites_totals now connected nearby probes connects st :
  let st' := state_of (add_statistics now connected nearby probes connects st) in
  total_probes st' = probes ∧ total_connections st' = connects
  ∧ (add_statistics now connected nearby probes connects st = Returned st'
     ∨ (0 < probes ∧ ¬ fits_float connects probes
        ∧ add_statistics now connected nearby probes connects st = Raised st')).
Proof.
  intros st'.
  destruct (add_statistics_totals now connected nearby probes connects st)
    as [Hp Hc].
  split_and!; [done..|]. subst st'.
  destruct (connection_rate_cases connects probes)
    as [(_ & Hr)|[(_ & _ & Hr)|(Hpos & Hfit & Hr)]].
  - left. destruct (add_statistics_returns now connected nearby _ _ st _ Hr)
      as [? ->]. done.
  - left. destruct (add_statistics_returns now connected nearby _ _ st _ Hr)
      as [? ->]. done.
  - right. destruct (add_statistics_raises now connected nearby _ _ st _ Hr)
      as [? ->]. done.
Qed.

(** ** The rolling window *)

Lemma length_last_n {A} n (l : list A) : (length (last_n n l) ≤ n)%nat.
Proof. unfold last_n. rewrite length_drop. lia. Qed.

Lemma deque_append_last_n {A} n (d : list A) x :
  (length d ≤ n)%nat → deque_append n d x = last_n n (d ++ [x]).
Proof.
  intros Hd. unfold deque_append, last_n. rewrite length_app. simpl.
  destruct (Nat.ltb_spec n (length d + 1)) as [Hlt|Hge].
  - replace (length d + 1 - n)%nat with 1%nat by lia. by destruct (d ++ [x]).
  - by replace (length d + 1 - n)%nat with 0%nat by lia.
Qed.

Lemma last_n_snoc {A} n (l : list A) x :
  last_n n (last_n n l ++ [x]) = last_n n (l ++ [x]).
Proof.
  unfold last_n. rewrite !length_app, length_drop. simpl.
  rewrite !drop_app, drop_drop, length_drop. f_equal.
  - f_equal. lia.
  - f_equal. lia.
Qed.

Lemma push_window {A} (w : list A) (all : list A) x :
  w = last_n MAX_DATA_POINTS all →
  deque_append MAX_DATA_POINTS w x = last_n MAX_DATA_POINTS (all ++ [x]).
Proof.
  intros ->. rewrite deque_append_last_n by apply length_last_n.
  apply last_n_snoc.
Qed.

Lemma run_windows t0 cs :
  let st := run (init t0) cs in
  timestamps st = last_n MAX_DATA_POINTS ((fun e => e.1.1) <$> stats_calls cs)
  ∧ connected_counts st = last_n MAX_DATA_POINTS ((fun e => e.1.2) <$> stats_calls cs)
  ∧ nearby_counts st = last_n MAX_DATA_POINTS ((fun e => e.2) <$> stats_calls cs)
  ∧ total_devices st
    = last_n MAX_DATA_POINTS ((fun e => e.1.2 + e.2) <$> stats_calls cs).
Proof.
  induction cs as [|c cs IH] using rev_ind; [done|].
  simpl in *. destruct IH as (Ht & Hc & Hn & Hd).
  unfold run, stats_calls in *. rewrite foldl_snoc, omap_app.
  destruct c as [now mac rssi s|now cn nb pr co|]; simpl.
  - by rewrite !app_nil_r.
  - unfold add_statistics.
    rewrite !fmap_app.
    destruct (connection_rate co pr) as [r|e]; simpl;
      [destruct (csv_writer _); simpl|];
      by rewrite (push_window _ _ _ Ht), (push_window _ _ _ Hc),
                 (push_window _ _ _ Hn), (push_window _ _ _ Hd).
  - by rewrite !app_nil_r.
Qed.

(** C9.  After any sequence of calls each of the four rolling series
    holds at most [MAX_DATA_POINTS] = 120 samples, namely the latest 120
    of all samples pushed, in the order pushed; a push onto a full series
    drops its oldest sample and keeps the others in order. *)
Theorem rolling_window_bounded_fifo t0 cs :
  let st := run (init t0) cs in
  MAX_DATA_POINTS = 120%nat
  ∧ (length (timestamps st) ≤ MAX_DATA_POINTS
     ∧ length (connected_counts st) ≤ MAX_DATA_POINTS
     ∧ length (nearby_counts st) ≤ MAX_DATA_POINTS
     ∧ length (total_devices st) ≤ MAX_DATA_POINTS)%nat
  ∧ timestamps st = last_n MAX_DATA_POINTS ((fun e => e.1.1) <$> stats_calls cs)
  ∧ connected_counts st = last_n MAX_DATA_POINTS ((fun e => e.1.2) <$> stats_calls cs)
  ∧ nearby_counts st = last_n MAX_DATA_POINTS ((fun e => e.2) <$> stats_calls cs)
  ∧ total_devices st
    = last_n MAX_DATA_POINTS ((fun e => e.1.2 + e.2) <$> stats_calls cs)
  ∧ (∀ (oldest : Z) d x,
       length (oldest :: d) = MAX_DATA_POINTS →
       deque_append MAX_DATA_POINTS (oldest :: d) x = d ++ [x]).
Proof.
  intros st. destruct (run_windows t0 cs) as (Ht & Hc & Hn & Hd).
  fold st in Ht, Hc, Hn, Hd.
  split_and!; try done.
  - rewrite Ht. apply length_last_n.
  - rewrite Hc. apply length_last_n.
  - rewrite Hn. apply length_last_n.
  - rewrite Hd. apply length_last_n.
  - intros oldest d x Hlen. unfold deque_append.
    rewrite length_app, Hlen. simpl.
    destruct (Nat.ltb_spec MAX_DATA_POINTS (MAX_DATA_POINTS + 1)); [done|lia].
Qed.

Lemma rolling_window_bounded_fifo_witness :
  deque_append MAX_DATA_POINTS (7 :: replicate 119 0) 1 = replicate 119 0 ++ [1].
Proof.
  destruct (rolling_window_bounded_fifo 0 [AddStatistics 1 3 7 50 10])
    as (_ & _ & _ & _ & _ & _ & Hfull).
  apply Hfull. reflexivity.
Defined.

(** ** Lines and calls *)

Lemma serial_reader_step_calls st r :
  serial_reader_step st r = run st (calls_of_reading r).
Proof.
  unfold serial_reader_step, calls_of_reading, parse_device_line, parse_stats_line.
  destruct (text r) as [|c line]; [done|].
  destruct (device_fields (String c line)) as [[[mac rssi] s]|];
    destruct (stats_fields (String c line)) as [[[[cn nb] pr] co]|]; simpl; try done.
  - by destruct (add_statistics _ _ _ _ _ _).
  - by destruct (add_statistics _ _ _ _ _ _).
Qed.

Lemma serial_reader_thread_calls rs st :
  serial_reader_thread rs st
  = run st (StartLogging :: concat (calls_of_reading <$> rs)).
Proof.
  unfold serial_reader_thread. simpl. generalize (start_logging st). clear st.
  induction rs as [|r rs IH]; intros st; [done|].
  simpl. rewrite run_app, <- serial_reader_step_calls. apply IH.
Qed.

(** ** Unique devices *)

Lemma add_device_dom now mac rssi s st :
  dom (devices_by_mac (add_device now mac rssi s st))
  = dom (devices_by_mac st) ∪ {[mac]}.
Proof.
  unfold add_device. simpl.
  destruct (devices_by_mac st !! mac) as [r|] eqn:Hm; simpl.
  - apply (elem_of_dom_2 (D:=gset string)) in Hm. set_solver.
  - rewrite dom_insert_L. set_solver.
Qed.

Lemma apply_call_dom st c :
  dom (devices_by_mac (apply_call st c))
  = dom (devices_by_mac st) ∪ list_to_set (call_macs [c]).
Proof.
  destruct c as [now mac rssi s|now cn nb pr co|].
  - change (apply_call st _) with (add_device now mac rssi s st).
    rewrite add_device_dom. set_solver.
  - change (apply_call st _) with (state_of (add_statistics now cn nb pr co st)).
    destruct (add_statistics_devices now cn nb pr co st) as (-> & _). set_solver.
  - simpl. set_solver.
Qed.

Lemma run_dom st cs :
  dom (devices_by_mac (run st cs))
  = dom (devices_by_mac st) ∪ list_to_set (call_macs cs).
Proof.
  revert st. induction cs as [|c cs IH]; intros st.
  - simpl. set_solver.
  - change (run st (c :: cs)) with (run (apply_call st c) cs).
    rewrite IH, apply_call_dom.
    change (c :: cs) with ([c] ++ cs). unfold call_macs.
    rewrite omap_app, list_to_set_app_L. set_solver.
Qed.

Lemma call_macs_app cs1 cs2 : call_macs (cs1 ++ cs2) = call_macs cs1 ++ call_macs cs2.
Proof. apply omap_app. Qed.

Lemma device_fields_empty : device_fields "" = None.
Proof. reflexivity. Qed.

Lemma call_macs_of_reading r :
  call_macs (calls_of_reading r)
  = match device_fields (text r) with Some f => [f.1.1] | None => [] end.
Proof.
  unfold calls_of_reading.
  destruct (text r) as [|c line]; [by rewrite device_fields_empty|].
  rewrite call_macs_app.
  destruct (device_fields (String c line)) as [[[mac rssi] s]|];
    destruct (stats_fields (String c line)) as [[[[cn nb] pr] co]|]; done.
Qed.

Lemma call_macs_of_readings rs :
  call_macs (concat (calls_of_reading <$> rs)) = device_ids rs.
Proof.
  induction rs as [|r rs IH]; [done|].
  rewrite fmap_cons. change (concat (?x :: ?l)) with (x ++ concat l).
  rewrite call_macs_app, IH, call_macs_of_reading.
  unfold device_ids. simpl. by destruct (device_fields (text r)).
Qed.

Lemma device_fields_id line f m :
  device_fields line = Some f → mac_match line = Some m → f.1.1 = Re.upper m.
Proof.
  unfold device_fields. intros Hf Hm. rewrite Hm in Hf.
  destruct (negb _); [done|].
  destruct (rssi_match line) as [r|]; [|done].
  destruct (status_match line) as [s|]; [|done].
  destruct (Re.int r); [|done]. by injection Hf as <-.
Qed.

(** C4.  After any sequence of lines the number of device records, in
    the object and in a snapshot of it, is the number of distinct
    upper-cased identifiers among the lines that parsed as device lines;
    the same holds for any sequence of calls and the identifiers passed.
    Two device lines whose MAC fields are equal after upper-casing give
    one record, and no call removes an identifier or changes the
    dictionary it refers to. *)
Theorem unique_devices_count t0 :
  (∀ rs,
     let st := serial_reader_thread rs (init t0) in
     dom (devices_by_mac st) = list_to_set (device_ids rs)
     ∧ size (devices_by_mac st) = size (list_to_set (device_ids rs) : gset string)
     ∧ plot_total_unique (get_plot_data st) = size (plot_devices (get_plot_data st))
     ∧ size (plot_devices (get_plot_data st))
       = size (list_to_set (device_ids rs) : gset string))
  ∧ (∀ cs,
       size (devices_by_mac (run (init t0) cs))
       = size (list_to_set (call_macs cs) : gset string))
  ∧ (∀ r1 r2 f1 f2 m1 m2,
       device_fields (text r1) = Some f1 → device_fields (text r2) = Some f2 →
       mac_match (text r1) = Some m1 → mac_match (text r2) = Some m2 →
       Re.upper m1 = Re.upper m2 →
       size (devices_by_mac (serial_reader_thread [r1; r2] (init t0))) = 1%nat)
  ∧ (∀ st c mac r,
       devices_by_mac st !! mac = Some r →
       devices_by_mac (apply_call st c) !! mac = Some r).
Proof.
  assert (∀ cs, dom (devices_by_mac (run (init t0) cs))
                = list_to_set (call_macs cs)) as Hdom.
  { intros cs. rewrite run_dom. simpl. rewrite dom_empty_L. set_solver. }
  assert (∀ rs, dom (devices_by_mac (serial_reader_thread rs (init t0)))
                = list_to_set (device_ids rs)) as Hlines.
  { intros rs. rewrite serial_reader_thread_calls, Hdom. simpl.
    by rewrite call_macs_of_readings. }
  split_and!.
  - intros rs st. subst st. simpl.
    rewrite <- Hlines, size_dom. done.
  - intros cs. by rewrite <- Hdom, size_dom.
  - intros r1 r2 f1 f2 m1 m2 Hf1 Hf2 Hm1 Hm2 Hup.
    rewrite <- size_dom, Hlines.
    assert (device_ids [r1; r2] = [Re.upper m2; Re.upper m2]) as ->.
    { unfold device_ids. simpl. rewrite Hf1, Hf2. simpl.
      by rewrite (device_fields_id _ _ _ Hf1 Hm1), (device_fields_id _ _ _ Hf2 Hm2), Hup. }
    assert ((list_to_set [Re.upper m2; Re.upper m2] : gset string) = {[Re.upper m2]})
      as -> by set_solver.
    apply size_singleton.
  - intros st c mac r. apply apply_call_keeps.
Qed.

Lemma unique_devices_count_witness :
  size (devices_by_mac
          (serial_reader_thread
             [{| text := "[DEVICE] MAC:aa:bb:cc:dd:ee:01 | RSSI:-40 | STATUS:NEARBY";
                 clock_device := 1; clock_stats := 1 |};
              {| text := "[DEVICE] mac:AA:BB:CC:DD:EE:01 | RSSI:-38 | STATUS:NEARBY";
                 clock_device := 2; clock_stats := 2 |}]
             (init 0))) = 1%nat.
Proof.
  destruct (unique_devices_count 0) as (_ & _ & Hsame & _).
  apply (Hsame _ _ ("AA:BB:CC:DD:EE:01", -40, "NEARBY")
               ("AA:BB:CC:DD:EE:01", -38, "NEARBY")
               "aa:bb:cc:dd:ee:01" "AA:BB:CC:DD:EE:01");
    vm_compute; reflexivity.
Defined.

(** ** The scenario of two lines for one device *)

Lemma line_nearby_calls t t' :
  calls_of_reading {| text := line_nearby; clock_device := t; clock_stats := t' |}
  = [AddDevice t "AA:BB:CC:DD:EE:01" (-40) "NEARBY"].
Proof. reflexivity. Qed.

Lemma line_connected_calls t t' :
  calls_of_reading {| text := line_connected; clock_device := t; clock_stats := t' |}
  = [AddDevice t "AA:BB:CC:DD:EE:01" (-38) "CONNECTED"].
Proof. reflexivity. Qed.

(** C8.  The NEARBY line followed by the CONNECTED line for the same MAC,
    fed to a new object, give one unique device whose dictionary has
    status CONNECTED, the RSSI history [-40, -38] in that order and a
    connect time, which is the clock value read for the second line. *)
Theorem scenario_nearby_then_connected t0 t1 t1' t2 t2' :
  let st :=
    serial_reader_thread
      [{| text := line_nearby; clock_device := t1; clock_stats := t1' |};
       {| text := line_connected; clock_device := t2; clock_stats := t2' |}]
      (init t0) in
  size (devices_by_mac st) = 1%nat
  ∧ plot_total_unique (get_plot_data st) = 1%nat
  ∧ ∃ d, device st "AA:BB:CC:DD:EE:01" = Some d
         ∧ plot_device (objects st) (get_plot_data st) "AA:BB:CC:DD:EE:01" = Some d
         ∧ status d = "CONNECTED"
         ∧ rssi_history d = [-40; -38]
         ∧ connect_time d = Some t2.
Proof.
  intros st.
  assert (st = run (init t0)
                 [StartLogging;
                  AddDevice t1 "AA:BB:CC:DD:EE:01" (-40) "NEARBY";
                  AddDevice t2 "AA:BB:CC:DD:EE:01" (-38) "CONNECTED"]) as Hst.
  { subst st. rewrite serial_reader_thread_calls, !fmap_cons.
    by rewrite line_nearby_calls, line_connected_calls. }
  assert (size (devices_by_mac st) = 1%nat) as Hsize.
  { rewrite Hst, <- size_dom, run_dom. simpl. rewrite dom_empty_L.
    assert ((∅ ∪ ({[ "AA:BB:CC:DD:EE:01" ]} ∪ ({[ "AA:BB:CC:DD:EE:01" ]} ∪ ∅))
             : gset string) = {[ "AA:BB:CC:DD:EE:01" ]}) as -> by set_solver.
    apply size_singleton. }
  assert (device st "AA:BB:CC:DD:EE:01"
          = Some (update_device t2 (-38) "CONNECTED" (new_device t1 (-40) "NEARBY")))
    as Hdev.
  { rewrite Hst, run_device, init_device by apply init_store_ok. reflexivity. }
  split_and!; [done..|].
  eexists. split_and!; [exact Hdev|exact Hdev|done..].
Qed.

(** ** Status tokens *)








(** ** Snapshots and later updates *)

(** C1.  A snapshot holds references to the device dictionaries, not
    copies: the snapshot taken after the first call shows status NEARBY
    when read at once and status CONNECTED, with a longer RSSI history,
    when read after the second call. *)
Theorem snapshot_shares_device_dictionaries :
  let mac := "AA:BB:CC:DD:EE:01" in
  let st1 := add_device 1000000 mac (-40) "NEARBY" (init 0) in
  let data := get_plot_data st1 in
  let st2 := add_device 2000000 mac (-38) "CONNECTED" st1 in
  plot_device (objects st1) data mac
  = Some {| first_seen := 1000000; last_seen := 1000000; rssi_history := [-40];
            status := "NEARBY"; connect_time := None; dwell_time := 0 |}
  ∧ plot_device (objects st2) data mac
    = Some {| first_seen := 1000000; last_seen := 2000000;
              rssi_history := [-40; -38]; status := "CONNECTED";
              connect_time := Some 2000000;
              dwell_time := total_seconds 1000000 |}.
Proof. split; vm_compute; reflexivity. Qed.

(** ** The report: peak hour and average dwell time *)

Lemma max_from_first best d :
  ∃ l1 l2, best :: d = l1 ++ Dict.max_from best d :: l2
           ∧ Forall (fun x => x.2 < (Dict.max_from best d).2) l1
           ∧ Forall (fun x => x.2 ≤ (Dict.max_from best d).2) l2.
Proof.
  revert best. induction d as [|x d IH]; intros best; simpl.
  - exists [], []. by split_and!.
  - destruct (Z.ltb_spec best.2 x.2) as [Hlt|Hge].
    + destruct (IH x) as (l1 & l2 & Heq & H1 & H2).
      exists (best :: l1), l2. rewrite Heq. split_and!; [done| |done].
      constructor; [|done].
      enough (x.2 ≤ (Dict.max_from x d).2) by (simpl in *; lia).
      destruct l1 as [|y l1]; simpl in Heq; injection Heq as Hx Hd.
      * rewrite <- Hx. lia.
      * subst y. apply Forall_cons in H1 as [? _]. simpl in *. lia.
    + destruct (IH best) as (l1 & l2 & Heq & H1 & H2).
      destruct l1 as [|y l1]; simpl in Heq; injection Heq as Hx Hd.
      * exists [], (x :: l2). subst l2. rewrite <- Hx. split_and!; [done..|].
        constructor; [lia|]. by rewrite Hx.
      * subst y. exists (best :: x :: l1), l2.
        split_and!; [simpl; by do 2 f_equal| |done].
        apply Forall_cons in H1 as [Hy Hl]. repeat constructor; try done.
        simpl in *. lia.
Qed.

(** The keys of [hourly_stats] after a store. *)
Lemma set_keys k v d :
  (Dict.set k v d).*1 = if decide (k ∈ d.*1) then d.*1 else d.*1 ++ [k].
Proof.
  induction d as [|[k' v'] d IH]; [done|].
  cbn [Dict.set]. rewrite !fmap_cons. cbn [fst].
  destruct (Z.eqb_spec k k') as [->|Hne].
  - rewrite fmap_cons. cbn [fst]. clear IH.
    case_decide as Hin; [done|]. destruct Hin. apply list_elem_of_here.
  - rewrite fmap_cons, IH. cbn [fst]. clear IH.
    destruct (decide (k ∈ d.*1)) as [Hin|Hout]; case_decide as Hin'.
    + done.
    + destruct Hin'. by apply list_elem_of_further.
    + apply elem_of_cons in Hin' as [?|?]; done.
    + done.
Qed.

Lemma apply_call_hourly st c :
  (hourly_stats (apply_call st c)).*1
  = match c with
    | AddDevice now _ _ _ =>
        if decide (hour_key now ∈ (hourly_stats st).*1) then (hourly_stats st).*1
        else (hourly_stats st).*1 ++ [hour_key now]
    | _ => (hourly_stats st).*1
    end.
Proof.
  destruct c as [now mac rssi s|now cn nb pr co|]; simpl.
  - apply set_keys.
  - by destruct (add_statistics_devices now cn nb pr co st) as (_ & _ & ->).
  - done.
Qed.

Lemma hour_key_mono t1 t2 : t1 ≤ t2 → hour_key t1 ≤ hour_key t2.
Proof. intros Hle. unfold hour_key. by apply Z.div_le_mono. Qed.

(** With a clock that does not go back the hour keys are stored in
    increasing order. *)
Lemma hourly_keys_sorted t0 cs :
  StronglySorted Z.le (call_times cs) →
  StronglySorted Z.lt (hourly_stats (run (init t0) cs)).*1
  ∧ ∀ k, k ∈ (hourly_stats (run (init t0) cs)).*1 →
         ∃ t, t ∈ call_times cs ∧ k = hour_key t.
Proof.
  induction cs as [|c cs IH] using rev_ind; intros Hs.
  { split; [constructor|]. intros k Hk. by apply elem_of_nil in Hk. }
  unfold call_times in Hs. rewrite omap_app in Hs.
  apply StronglySorted_app in Hs as (Hle & Hs & _).
  destruct (IH Hs) as [Hsorted Hkeys].
  rewrite run_app. simpl. rewrite apply_call_hourly.
  unfold call_times. setoid_rewrite omap_app. setoid_rewrite elem_of_app.
  assert (∀ k, k ∈ (hourly_stats (run (init t0) cs)).*1 →
               ∃ t, (t ∈ omap call_time cs ∨ t ∈ omap call_time [c])
                    ∧ k = hour_key t) as Hold.
  { intros k Hk. destruct (Hkeys k Hk) as (t & Ht & ->). eauto. }
  destruct c as [now mac rssi s|now cn nb pr co|]; [|done..].
  case_decide as Hin; [done|]. split.
  - apply StronglySorted_app_2; [|done|repeat constructor].
    intros k1 k2 Hk1 ->%list_elem_of_singleton.
    destruct (Hkeys k1 Hk1) as (t & Ht & ->).
    assert (hour_key t ≤ hour_key now).
    { apply hour_key_mono, Hle; [done|]. simpl. apply list_elem_of_here. }
    assert (hour_key t ≠ hour_key now) by (by intros Heq; rewrite Heq in Hk1).
    lia.
  - intros k [Hk| ->%list_elem_of_singleton]%elem_of_app; [by apply Hold|].
    exists now. split; [|done]. right. simpl. apply list_elem_of_here.
Qed.

Lemma omap_all_length {A B} (f : A → option B) (l : list A) :
  Forall (fun x => is_Some (f x)) l → length (omap f l) = length l.
Proof.
  induction 1 as [|x l [y Hy] _ IH]; simpl; [done|].
  rewrite Hy. simpl. f_equal. exact IH.
Qed.

Lemma device_values_length st :
  store_ok st → length (device_values st) = size (devices_by_mac st).
Proof.
  intros [Hv _]. unfold device_values.
  rewrite omap_all_length, length_map_to_list; [done|].
  apply Forall_forall. intros [mac r] Hin%elem_of_map_to_list.
  apply lookup_lt_is_Some_2. eauto.
Qed.

Lemma Qdiv_mult_cancel (a n : Q) : ¬ (n == 0)%Q → (a / n * n == a)%Q.
Proof. intros Hn. field. exact Hn. Qed.

Lemma np_mean_sum l m :
  np_mean l = Some m → (m * inject_Z (Z.of_nat (length l)) == Qsum l)%Q.
Proof.
  destruct l as [|x l]; [done|]. intros [= <-].
  apply Qdiv_mult_cancel. unfold Qeq. simpl. lia.
Qed.

Lemma mean_or_sum l m :
  mean_or 0%Q l = Some m → (m * inject_Z (Z.of_nat (length l)) == Qsum l)%Q.
Proof.
  destruct l as [|x l]; [by intros [= <-]|]. apply np_mean_sum.
Qed.

Lemma generate_analytics_report_fields np_mean_int now st rep :
  generate_analytics_report np_mean_int now st = Some rep →
  peak_hour rep = match hourly_stats st with
                  | [] => None
                  | x :: d => Some (Dict.max_from x d).1
                  end
  ∧ peak_hour_count rep = match hourly_stats st with
                          | [] => 0
                          | x :: d => (Dict.max_from x d).2
                          end
  ∧ mean_or 0%Q (dwell_time <$> device_values st) = Some (avg_dwell_time_seconds rep).
Proof.
  unfold generate_analytics_report. intros Hrep.
  destruct (mean_int_or np_mean_int 0%Q _), (mean_or 0%Q (dwell_time <$> _)),
    (connection_rate _ _), (mean_int_or np_mean_int (-100)%Q _);
    simpl in Hrep; try done.
  injection Hrep as <-. simpl. by destruct (hourly_stats st).
Qed.

(** C7, as the code has it.  In every report that is produced for a
    reachable state the peak hour is the first hour key, in the order the
    keys were stored, among those with the greatest count; when the clock
    values of the calls do not decrease that is the earliest such hour.
    Without any hour the peak hour is ['N/A'].  The average dwell time
    times the number of devices is the sum of their dwell times, and it
    is 0 without devices. *)
Theorem peak_hour_and_average_dwell np_mean_int t0 cs now rep :
  let st := run (init t0) cs in
  generate_analytics_report np_mean_int now st = Some rep →
  (hourly_stats st = [] → peak_hour rep = None ∧ peak_hour_count rep = 0)
  ∧ (hourly_stats st ≠ [] →
     ∃ k l1 l2,
       peak_hour rep = Some k
       ∧ hourly_stats st = l1 ++ (k, peak_hour_count rep) :: l2
       ∧ Forall (fun x => x.2 < peak_hour_count rep) l1
       ∧ Forall (fun x => x.2 ≤ peak_hour_count rep) l2)
  ∧ (Sorted Z.le (call_times cs) →
     ∀ k k' c', peak_hour rep = Some k → (k', c') ∈ hourly_stats st →
                c' ≤ peak_hour_count rep ∧ (c' = peak_hour_count rep → k ≤ k'))
  ∧ length (device_values st) = size (devices_by_mac st)
  ∧ (avg_dwell_time_seconds rep * inject_Z (Z.of_nat (length (device_values st)))
     == Qsum (dwell_time <$> device_values st))%Q
  ∧ (devices_by_mac st = ∅ → avg_dwell_time_seconds rep = 0%Q).
Proof.
  intros st Hrep.
  destruct (generate_analytics_report_fields _ now st rep Hrep) as (Hpk & Hcnt & Havg).
  assert (hourly_stats st ≠ [] →
          ∃ k l1 l2,
            peak_hour rep = Some k
            ∧ hourly_stats st = l1 ++ (k, peak_hour_count rep) :: l2
            ∧ Forall (fun x => x.2 < peak_hour_count rep) l1
            ∧ Forall (fun x => x.2 ≤ peak_hour_count rep) l2) as Hfirst.
  { intros Hne. destruct (hourly_stats st) as [|x d]; [done|].
    destruct (max_from_first x d) as (l1 & l2 & Heq & H1 & H2).
    exists (Dict.max_from x d).1, l1, l2. rewrite Hcnt.
    by rewrite <- surjective_pairing. }
  split_and!.
  - intros Hnil. rewrite Hnil in Hpk, Hcnt. done.
  - done.
  - intros Hs k k' c' Hk Hin.
    destruct Hfirst as (k0 & l1 & l2 & Hk0 & Heq & H1 & H2).
    { intros Hnil. rewrite Hnil in Hin. by apply elem_of_nil in Hin. }
    assert (k0 = k) as -> by congruence.
    apply Sorted_StronglySorted in Hs; [|intros x y z; apply Z.le_trans].
    destruct (hourly_keys_sorted t0 cs Hs) as [Hkeys _]. fold st in Hkeys.
    rewrite Heq, fmap_app, fmap_cons in Hkeys.
    apply StronglySorted_app_1_r in Hkeys.
    apply StronglySorted_cons in Hkeys as [Hlater _].
    rewrite Heq in Hin.
    apply elem_of_app in Hin as [Hin|Hin].
    + rewrite Forall_forall in H1. apply H1 in Hin. simpl in Hin. lia.
    + apply elem_of_cons in Hin as [[= -> ->]|Hin]; [lia|].
      rewrite Forall_forall in H2. rewrite Forall_forall in Hlater.
      pose proof (H2 _ Hin) as Hc. simpl in Hc. split; [done|]. intros _.
      apply Z.lt_le_incl, Hlater.
      by apply (list_elem_of_fmap_2 fst) in Hin.
  - apply device_values_length, run_store_ok, init_store_ok.
  - apply mean_or_sum in Havg. by rewrite length_fmap in Havg.
  - intros Hempty. unfold device_values in Havg.
    rewrite Hempty, map_to_list_empty in Havg. by injection Havg as <-.
Qed.

Lemma peak_hour_and_average_dwell_witness :
  let cs := [AddDevice 39600000000 "AA:01" (-40) "NEARBY";
             AddDevice 43200000000 "AA:02" (-50) "NEARBY"] in
  ∃ rep,
    generate_analytics_report exact_mean 50000000000 (run (init 0) cs) = Some rep
    ∧ peak_hour rep = Some 11
    ∧ ∀ k k' c', peak_hour rep = Some k → (k', c') ∈ hourly_stats (run (init 0) cs) →
                 c' ≤ peak_hour_count rep ∧ (c' = peak_hour_count rep → k ≤ k').
Proof.
  intros cs.
  destruct (generate_analytics_report_exact 50000000000 (run (init 0) cs))
    as [rep Hrep]; [done|].
  destruct (peak_hour_and_average_dwell exact_mean 0 cs 50000000000 rep Hrep)
    as (_ & _ & Hsorted & _).
  exists rep. split_and!; [done| |].
  - by destruct (generate_analytics_report_fields _ _ _ _ Hrep) as (-> & _).
  - apply Hsorted. repeat constructor. simpl. lia.
Defined.

(** C7, as the specification has it, fails: when the clock is set back
    across an hour boundary the later hour is stored first, and on equal
    counts the report names it, not the earlier hour. *)
Lemma peak_hour_tie_follows_insertion :
  ¬ (∀ np_mean_int t0 cs now rep k k' c',
       generate_analytics_report np_mean_int now (run (init t0) cs) = Some rep →
       peak_hour rep = Some k →
       (k', c') ∈ hourly_stats (run (init t0) cs) →
       c' = peak_hour_count rep → k ≤ k').
Proof.
  intros H.
  set (cs := [AddDevice 43200000000 "AA:01" (-40) "NEARBY";
              AddDevice 39600000000 "AA:02" (-50) "NEARBY"]).
  destruct (generate_analytics_report_exact 50000000000 (run (init 0) cs))
    as [rep Hrep]; [done|].
  destruct (generate_analytics_report_fields _ _ _ _ Hrep) as (Hpk & Hcnt & _).
  assert (12 ≤ 11); [|lia].
  apply (H exact_mean 0 cs 50000000000 rep 12 11 1 Hrep Hpk); [|by rewrite Hcnt].
  apply list_elem_of_further, list_elem_of_here.
Qed.

(** * Further properties *)

(** ** The hourly dictionary *)

Lemma Zsum_app l1 l2 : Zsum (l1 ++ l2) = Zsum l1 + Zsum l2.
Proof. induction l1 as [|x l1 IH]; simpl; [done|]. rewrite IH. lia. Qed.

Lemma Zsum_cons x l : Zsum (x :: l) = x + Zsum l.
Proof. reflexivity. Qed.

Lemma get_set_eq k v d dflt : Dict.get k (Dict.set k v d) dflt = v.
Proof.
  induction d as [|[k' v'] d IH]; simpl.
  - by rewrite Z.eqb_refl.
  - destruct (Z.eqb_spec k k') as [->|Hne]; simpl.
    + by rewrite Z.eqb_refl.
    + destruct (Z.eqb_spec k k'); [done|]. apply IH.
Qed.

Lemma get_set_ne k k' v d dflt :
  k' ≠ k → Dict.get k' (Dict.set k v d) dflt = Dict.get k' d dflt.
Proof.
  intros Hne. induction d as [|[k0 v0] d IH]; simpl.
  - destruct (Z.eqb_spec k' k); [done|done].
  - destruct (Z.eqb_spec k k0) as [->|Hne0]; simpl.
    + destruct (Z.eqb_spec k' k0); [done|done].
    + destruct (Z.eqb_spec k' k0); [done|]. apply IH.
Qed.

Lemma bump_sum k d :
  Zsum (Dict.set k (Dict.get k d 0 + 1) d).*2 = Zsum d.*2 + 1.
Proof.
  induction d as [|[k' v'] d IH]; [done|].
  cbn [Dict.set Dict.get].
  destruct (Z.eqb_spec k k') as [->|Hne]; rewrite !fmap_cons, !Zsum_cons; cbn [snd].
  - lia.
  - rewrite IH. lia.
Qed.

Lemma bump_positive k d :
  Forall (fun kc => 1 ≤ kc.2) d →
  Forall (fun kc => 1 ≤ kc.2) (Dict.set k (Dict.get k d 0 + 1) d).
Proof.
  induction 1 as [|[k' v'] d Hv Hd IH]; simpl.
  - by repeat constructor.
  - destruct (Z.eqb_spec k k') as [->|Hne]; constructor; simpl in *; try done. lia.
Qed.

Lemma set_keys_NoDup k v d : NoDup d.*1 → NoDup (Dict.set k v d).*1.
Proof.
  intros Hnd. rewrite set_keys. case_decide as Hin; [done|].
  apply NoDup_app. split_and!; [done| |apply NoDup_singleton].
  intros x Hx ->%list_elem_of_singleton. done.
Qed.

Lemma get_elem_of k c d dflt :
  NoDup d.*1 → (k, c) ∈ d → Dict.get k d dflt = c.
Proof.
  induction d as [|[k' v'] d IH]; intros Hnd Hin; [by apply elem_of_nil in Hin|].
  rewrite fmap_cons in Hnd. apply NoDup_cons in Hnd as [Hk' Hnd]. simpl.
  apply elem_of_cons in Hin as [[= -> ->]|Hin].
  - by rewrite Z.eqb_refl.
  - destruct (Z.eqb_spec k k') as [->|Hne]; [|by apply IH].
    destruct Hk'. by apply (list_elem_of_fmap_2 fst) in Hin.
Qed.

Lemma detection_times_snoc cs c :
  detection_times (cs ++ [c])
  = detection_times cs ++ match c with AddDevice now _ _ _ => [now] | _ => [] end.
Proof. unfold detection_times. rewrite omap_app. by destruct c. Qed.

Lemma apply_call_hourly_stats st c :
  hourly_stats (apply_call st c)
  = match c with
    | AddDevice now _ _ _ =>
        Dict.set (hour_key now) (Dict.get (hour_key now) (hourly_stats st) 0 + 1)
                 (hourly_stats st)
    | _ => hourly_stats st
    end.
Proof.
  destruct c as [now mac rssi s|now cn nb pr co|]; simpl; [done| |done].
  by destruct (add_statistics_devices now cn nb pr co st) as (_ & _ & ->).
Qed.

(** X1.  After any sequence of calls the hour keys of [hourly_stats] are
    distinct, the count stored for an hour is the number of [add_device]
    calls whose clock value falls in that hour (0 for an hour that is not
    a key), every stored count is at least 1, and the counts add up to
    the number of [add_device] calls. *)
Theorem hourly_stats_count_detections t0 cs :
  let st := run (init t0) cs in
  NoDup (hourly_stats st).*1
  ∧ (∀ k, Dict.get k (hourly_stats st) 0
          = Z.of_nat (length (filter (fun t => hour_key t = k) (detection_times cs))))
  ∧ Forall (fun kc => 1 ≤ kc.2) (hourly_stats st)
  ∧ Zsum (hourly_stats st).*2 = Z.of_nat (length (detection_times cs)).
Proof.
  induction cs as [|c cs IH] using rev_ind.
  { simpl. split_and!; [constructor|done|constructor|done]. }
  simpl in *. destruct IH as (Hnd & Hget & Hpos & Hsum).
  rewrite run_app. simpl. rewrite apply_call_hourly_stats, detection_times_snoc.
  destruct c as [now mac rssi s|now cn nb pr co|]; rewrite ?app_nil_r; try done.
  split_and!.
  - by apply set_keys_NoDup.
  - intros k. rewrite filter_app, length_app, Nat2Z.inj_add, <- Hget.
    destruct (decide (hour_key now = k)) as [<-|Hne].
    + rewrite get_set_eq, filter_cons_True by done. simpl. lia.
    + rewrite get_set_ne, filter_cons_False by done. simpl. lia.
  - by apply bump_positive.
  - rewrite bump_sum, Hsum, length_app. simpl. lia.
Qed.

(** ** The device registry *)

Lemma apply_call_objects_size st c :
  length (objects st) = size (devices_by_mac st) →
  length (objects (apply_call st c)) = size (devices_by_mac (apply_call st c)).
Proof.
  intros Hlen. destruct c as [now mac rssi s|now cn nb pr co|]; simpl.
  - destruct (devices_by_mac st !! mac) as [r|] eqn:Hm; simpl.
    + by rewrite length_alter.
    + rewrite length_app, map_size_insert_None by done. simpl. lia.
  - by destruct (add_statistics_devices now cn nb pr co st) as (-> & -> & _).
  - done.
Qed.

Lemma run_objects_size t0 cs :
  length (objects (run (init t0) cs)) = size (devices_by_mac (run (init t0) cs)).
Proof.
  induction cs as [|c cs IH] using rev_ind; [done|].
  rewrite run_app. by apply apply_call_objects_size.
Qed.

(** X2.  After any sequence of calls every identifier of [devices_by_mac]
    has its own dictionary: the references are valid, no two identifiers
    share one, and the object store holds exactly as many dictionaries as
    there are identifiers. *)
Theorem one_dictionary_per_identifier t0 cs :
  let st := run (init t0) cs in
  length (objects st) = size (devices_by_mac st)
  ∧ (∀ mac, mac ∈ dom (devices_by_mac st) ↔ is_Some (device st mac))
  ∧ (∀ mac1 mac2 r,
       devices_by_mac st !! mac1 = Some r → devices_by_mac st !! mac2 = Some r →
       mac1 = mac2).
Proof.
  intros st.
  assert (store_ok st) as [Hv Ha] by apply run_store_ok, init_store_ok.
  split_and!.
  - apply run_objects_size.
  - intros mac. rewrite elem_of_dom. unfold device. split.
    + intros [r Hr]. rewrite Hr. apply lookup_lt_is_Some_2. eauto.
    + destruct (devices_by_mac st !! mac); [by eauto|by intros [? ?]].
  - exact Ha.
Qed.

Lemma one_dictionary_per_identifier_witness :
  let st := run (init 0) [AddDevice 1 "AA:01" (-40) "NEARBY";
                          AddDevice 2 "AA:02" (-50) "NEARBY";
                          AddDevice 3 "AA:01" (-41) "CONNECTED"] in
  length (objects st) = 2%nat ∧ is_Some (device st "AA:02").
Proof.
  intros st.
  destruct (one_dictionary_per_identifier 0
              [AddDevice 1 "AA:01" (-40) "NEARBY";
               AddDevice 2 "AA:02" (-50) "NEARBY";
               AddDevice 3 "AA:01" (-41) "CONNECTED"]) as (Hlen & Hdom & _).
  subst st. split.
  - rewrite Hlen. vm_compute. reflexivity.
  - apply Hdom. apply elem_of_dom. vm_compute. eauto.
Defined.

(** X3.  [add_device] for one identifier leaves the dictionary of every
    other identifier as it was, and a statistics call leaves all of
    them. *)
Theorem add_device_leaves_others t0 cs now mac rssi s mac' :
  mac' ≠ mac →
  device (add_device now mac rssi s (run (init t0) cs)) mac'
  = device (run (init t0) cs) mac'
  ∧ ∀ cn nb pr co,
      device (state_of (add_statistics now cn nb pr co (run (init t0) cs))) mac'
      = device (run (init t0) cs) mac'.
Proof.
  intros Hne. split.
  - apply add_device_other; [apply run_store_ok, init_store_ok|done].
  - intros. apply add_statistics_device.
Qed.

Lemma add_device_leaves_others_witness :
  device (add_device 2 "AA:02" (-50) "CONNECTED"
            (run (init 0) [AddDevice 1 "AA:01" (-40) "NEARBY"])) "AA:01"
  = device (run (init 0) [AddDevice 1 "AA:01" (-40) "NEARBY"]) "AA:01".
Proof.
  apply (add_device_leaves_others 0 [AddDevice 1 "AA:01" (-40) "NEARBY"]
           2 "AA:02" (-50) "CONNECTED" "AA:01").
  discriminate.
Defined.

Lemma touched_history h d :
  foldl touch None h = Some d → rssi_history d = h.*1.*2.
Proof.
  revert d. induction h as [|[[t r] s] h IH] using rev_ind; intros d; [done|].
  rewrite foldl_snoc, !fmap_app. simpl.
  destruct (foldl touch None h) as [d0|] eqn:Hh; unfold touch; intros [= <-]; simpl.
  - by rewrite (IH d0).
  - by apply foldl_touch_None in Hh as ->.
Qed.

(** X4.  A device has a dictionary exactly when some call named it.  Its
    RSSI history is the list of the RSSI values of all calls that named
    it, in the order of the calls, and its status is that of the latest
    such call. *)
Theorem device_record_from_calls t0 cs mac :
  let st := run (init t0) cs in
  (device st mac = None ↔ device_calls mac cs = [])
  ∧ rssi_history <$> device st mac
    = match device_calls mac cs with
      | [] => None
      | h => Some (h.*1.*2)
      end
  ∧ status <$> device st mac = last (device_calls mac cs).*2.
Proof.
  intros st. subst st. rewrite run_device, init_device by apply init_store_ok.
  destruct (foldl touch None (device_calls mac cs)) as [d|] eqn:Hd.
  - destruct (touched_seen _ _ Hd) as (_ & _ & _ & Hst).
    pose proof (touched_history _ _ Hd) as Hh.
    split_and!.
    + split; [done|]. intros Hnil. by rewrite Hnil in Hd.
    + simpl. rewrite Hh. by destruct (device_calls mac cs).
    + simpl. by rewrite Hst.
  - apply foldl_touch_None in Hd as ->. by split_and!.
Qed.

Lemma connection_starts_subset b h t :
  t ∈ connection_starts b h → t ∈ h.*1.
Proof.
  revert b. induction h as [|[t' s] h IH]; intros b; simpl; [done|].
  intros [Hin|Hin]%elem_of_app.
  - destruct (is_connected s && negb b); [|by apply elem_of_nil in Hin].
    apply list_elem_of_singleton in Hin as ->. apply list_elem_of_here.
  - apply list_elem_of_further. by apply (IH (is_connected s)).
Qed.

Lemma sorted_between (l : list Z) a b t :
  StronglySorted Z.le l → head l = Some a → last l = Some b → t ∈ l → a ≤ t ≤ b.
Proof.
  intros Hs Hh Hl Hin.
  apply list_elem_of_split in Hin as (l1 & l2 & ->).
  apply StronglySorted_app in Hs as (Hcross & Hs1 & Hs2). split.
  - destruct l1 as [|x l1]; [simpl in Hh; injection Hh as ->; lia|].
    simpl in Hh. injection Hh as ->. apply Hcross; apply list_elem_of_here.
  - rewrite last_app in Hl. simpl in Hl.
    destruct l2 as [|y l2]; [simpl in Hl; injection Hl as ->; lia|].
    rewrite last_cons_cons in Hl.
    destruct (last (y :: l2)) as [z|] eqn:Hz; [|by apply last_None in Hz].
    injection Hl as ->. apply StronglySorted_cons in Hs2 as [Hall _].
    rewrite Forall_forall in Hall. by apply Hall, last_Some_elem_of.
Qed.

(** X5.  The connect time of a device, when set, is the clock value of
    one of the calls that named the device; with a clock that does not go
    back it lies between [first_seen] and [last_seen]. *)
Theorem connect_time_within_seen t0 cs mac d t :
  device (run (init t0) cs) mac = Some d → connect_time d = Some t →
  t ∈ device_times mac cs
  ∧ (Sorted Z.le (call_times cs) → first_seen d ≤ t ≤ last_seen d).
Proof.
  intros Hd Ht.
  rewrite run_device, init_device in Hd by apply init_store_ok.
  pose proof (touched_connect_time _ _ Hd) as Hct.
  destruct (touched_seen _ _ Hd) as (Hf & Hl & _).
  rewrite <- device_times_fst in Hf, Hl.
  assert (t ∈ device_times mac cs) as Hin.
  { rewrite Ht in Hct. symmetry in Hct. apply last_Some_elem_of in Hct.
    apply connection_starts_subset in Hct.
    rewrite <- list_fmap_compose in Hct. done. }
  split; [done|]. intros Hs.
  apply (sorted_between (device_times mac cs)); try done.
  apply device_times_sorted, Sorted_StronglySorted; [|done].
  intros x y z. apply Z.le_trans.
Qed.

Lemma connect_time_within_seen_witness :
  let cs := [AddDevice 1 "AA:01" (-40) "NEARBY";
             AddDevice 5 "AA:01" (-41) "CONNECTED";
             AddDevice 9 "AA:01" (-42) "CONNECTED"] in
  5 ∈ device_times "AA:01" cs ∧ 1 ≤ 5 ≤ 9.
Proof.
  intros cs.
  destruct (connect_time_within_seen 0 cs "AA:01"
              {| first_seen := 1; last_seen := 9; rssi_history := [-40; -41; -42];
                 status := "CONNECTED"; connect_time := Some 5;
                 dwell_time := total_seconds 8 |} 5) as [Hin Hbetween].
  - vm_compute. reflexivity.
  - reflexivity.
  - split; [exact Hin|]. apply Hbetween. repeat constructor; simpl; lia.
Defined.

(** ** Statistics: history, series and totals *)

Lemma stats_calls_snoc cs c :
  stats_calls (cs ++ [c])
  = stats_calls cs
    ++ match c with
       | AddStatistics now cn nb _ _ => [(now, cn, nb)]
       | _ => []
       end.
Proof. unfold stats_calls. rewrite omap_app. by destruct c. Qed.

Lemma stats_totals_snoc cs c :
  stats_totals (cs ++ [c])
  = stats_totals cs
    ++ match c with
       | AddStatistics _ _ _ pr co => [(pr, co)]
       | _ => []
       end.
Proof. unfold stats_totals. rewrite omap_app. by destruct c. Qed.

Lemma add_statistics_state now cn nb pr co st :
  let st' := state_of (add_statistics now cn nb pr co st) in
  all_timestamps st' = all_timestamps st ++ [now]
  ∧ all_device_counts st' = all_device_counts st ++ [cn + nb]
  ∧ all_connection_attempts st' = all_connection_attempts st ++ [co]
  ∧ total_probes st' = pr ∧ total_connections st' = co.
Proof.
  unfold add_statistics. destruct (connection_rate co pr); [|done].
  simpl. by destruct (csv_writer st).
Qed.

Lemma run_history t0 cs :
  let st := run (init t0) cs in
  all_timestamps st = (fun e => e.1.1) <$> stats_calls cs
  ∧ all_device_counts st = (fun e => e.1.2 + e.2) <$> stats_calls cs
  ∧ all_connection_attempts st = (stats_totals cs).*2
  ∧ total_probes st = default 0 (last (stats_totals cs).*1)
  ∧ total_connections st = default 0 (last (stats_totals cs).*2).
Proof.
  induction cs as [|c cs IH] using rev_ind; [done|].
  simpl in *. destruct IH as (Ht & Hd & Hc & Hp & Hk).
  rewrite run_app, stats_calls_snoc, stats_totals_snoc.
  destruct c as [now mac rssi s|now cn nb pr co|]; rewrite ?app_nil_r; try done.
  change (run (run (init t0) cs) [AddStatistics now cn nb pr co])
    with (state_of (add_statistics now cn nb pr co (run (init t0) cs))).
  destruct (add_statistics_state now cn nb pr co (run (init t0) cs))
    as (-> & -> & -> & -> & ->).
  rewrite !fmap_app, !list_fmap_singleton, !last_snoc, Ht, Hd, Hc. done.
Qed.

(** X6.  The three unbounded lists hold one entry for every
    [add_statistics] call, in order: its clock value, its
    [connected + nearby] and its [total_connects].  The rolling series
    of clock values and of totals are the last [MAX_DATA_POINTS] entries
    of the first two. *)
Theorem history_lists_complete t0 cs :
  let st := run (init t0) cs in
  all_timestamps st = (fun e => e.1.1) <$> stats_calls cs
  ∧ all_device_counts st = (fun e => e.1.2 + e.2) <$> stats_calls cs
  ∧ all_connection_attempts st = (stats_totals cs).*2
  ∧ timestamps st = last_n MAX_DATA_POINTS (all_timestamps st)
  ∧ total_devices st = last_n MAX_DATA_POINTS (all_device_counts st).
Proof.
  intros st. destruct (run_history t0 cs) as (Ht & Hd & Hc & _).
  destruct (run_windows t0 cs) as (Hwt & _ & _ & Hwd).
  fold st in Ht, Hd, Hc, Hwt, Hwd.
  split_and!; try done.
  - by rewrite Ht.
  - by rewrite Hd.
Qed.

(** X7.  The stored totals are those of the latest [add_statistics]
    call, and 0 before the first one. *)
Theorem latest_totals_stored t0 cs :
  let st := run (init t0) cs in
  total_probes st = default 0 (last (stats_totals cs).*1)
  ∧ total_connections st = default 0 (last (stats_totals cs).*2).
Proof. intros st. by destruct (run_history t0 cs) as (_ & _ & _ & Hp & Hk). Qed.

Lemma last_n_fmap {A B} (f : A → B) n (l : list A) :
  last_n n (f <$> l) = f <$> last_n n l.
Proof. unfold last_n. by rewrite fmap_drop, length_fmap. Qed.

Lemma zip_with_same {A} (f g : A → Z) (l : list A) :
  zip_with Z.add (f <$> l) (g <$> l) = (fun e => f e + g e) <$> l.
Proof. induction l as [|x l IH]; simpl; [done|]. f_equal. exact IH. Qed.

(** X8.  The four rolling series always have the same length, and the
    series of totals is the sum of the series of connected and of nearby
    counts, entry by entry. *)
Theorem series_aligned t0 cs :
  let st := run (init t0) cs in
  length (timestamps st) = length (connected_counts st)
  ∧ length (connected_counts st) = length (nearby_counts st)
  ∧ length (nearby_counts st) = length (total_devices st)
  ∧ total_devices st = zip_with Z.add (connected_counts st) (nearby_counts st).
Proof.
  intros st. destruct (run_windows t0 cs) as (Ht & Hc & Hn & Hd).
  fold st in Ht, Hc, Hn, Hd. rewrite Ht, Hc, Hn, Hd, !last_n_fmap.
  rewrite !length_fmap. split_and!; try done.
  by rewrite zip_with_same.
Qed.

(** ** The CSV log *)

Lemma add_device_size now mac rssi s st :
  (size (devices_by_mac st) ≤ size (devices_by_mac (add_device now mac rssi s st)))%nat.
Proof.
  rewrite <- !size_dom, add_device_dom. apply subseteq_size. set_solver.
Qed.

Lemma csv_ok_add_device now mac rssi s st rows parsed :
  csv_ok st rows parsed → csv_ok (add_device now mac rssi s st) rows parsed.
Proof.
  intros (Hw & Ht & Hd & Hc & Hp & Hall). split_and!; try done.
  eapply Forall_impl; [exact Hall|]. intros row [Hrate Hu]. split; [done|].
  etrans; [exact Hu|apply add_device_size].
Qed.

Lemma csv_ok_add_statistics now cn nb pr co st rows parsed :
  csv_ok st rows parsed →
  ∃ rows', csv_ok (state_of (add_statistics now cn nb pr co st))
                  rows' (parsed ++ [(now, (cn, nb, pr, co))]).
Proof.
  intros (Hw & Ht & Hd & Hc & Hp & Hall). unfold add_statistics.
  destruct (connection_rate co pr) as [rate|e] eqn:Hrate.
  - simpl. rewrite Hw. eexists (rows ++ [_]). split_and!; simpl.
    + done.
    + by rewrite fmap_app, Ht.
    + by rewrite fmap_app, Hd.
    + by rewrite fmap_app, Hc.
    + rewrite fmap_app, filter_app, Hp. f_equal.
      rewrite filter_cons_True; [done|].
      unfold rate_defined. simpl. by rewrite Hrate.
    + apply Forall_app. split; [done|]. by repeat constructor.
  - exists rows. split_and!; simpl.
    + done.
    + by rewrite fmap_app, Ht.
    + by rewrite fmap_app, Hd.
    + by rewrite fmap_app, Hc.
    + rewrite filter_app, Hp.
      rewrite filter_cons_False; [by rewrite app_nil_r|].
      unfold rate_defined. simpl. rewrite Hrate. tauto.
    + done.
Qed.

Lemma stats_fields_empty : stats_fields "" = None.
Proof. reflexivity. Qed.

Lemma serial_reader_thread_snoc rs r st :
  serial_reader_thread (rs ++ [r]) st
  = serial_reader_step (serial_reader_thread rs st) r.
Proof. unfold serial_reader_thread. apply foldl_snoc. Qed.

(** X9.  While [serial_reader_thread] runs, every line that parsed as a
    statistics line has its entry in the three unbounded lists, in order.
    The CSV writer has received one row, with the clock value and the
    four numbers of the line, for those of these lines whose connection
    rate was computed, in order, and none for a line whose rate raised.
    The rate of a row is the guarded rate of its own totals, and its
    count of unique devices does not exceed the present one. *)
Theorem csv_log_mirrors_history t0 rs :
  ∃ rows, csv_ok (serial_reader_thread rs (init t0)) rows (stats_readings rs).
Proof.
  induction rs as [|r rs IH] using rev_ind.
  { exists []. by split_and!. }
  destruct IH as [rows Hok].
  rewrite serial_reader_thread_snoc, serial_reader_step_calls.
  unfold stats_readings. rewrite omap_app. fold (stats_readings rs).
  unfold calls_of_reading. simpl.
  destruct (text r) as [|ch line] eqn:Htext.
  { rewrite stats_fields_empty. simpl. rewrite app_nil_r. by exists rows. }
  set (st := serial_reader_thread rs (init t0)) in *.
  assert (∃ st1, run st match device_fields (String ch line) with
                        | Some (mac, rssi, s) => [AddDevice (clock_device r) mac rssi s]
                        | None => []
                        end = st1 ∧ csv_ok st1 rows (stats_readings rs))
    as (st1 & Hst1 & Hok1).
  { destruct (device_fields (String ch line)) as [[[mac rssi] s]|]; simpl.
    - eexists. split; [done|]. by apply csv_ok_add_device.
    - by exists st. }
  rewrite run_app, Hst1.
  destruct (stats_fields (String ch line)) as [[[[cn nb] pr] co]|]; simpl.
  - destruct (csv_ok_add_statistics (clock_stats r) cn nb pr co _ _ _ Hok1)
      as [rows' Hrow].
    by exists rows'.
  - rewrite app_nil_r. by exists rows.
Qed.

(** ** The line parsers *)

Lemma search_Some m s g : Re.search m s = Some g → ∃ t, m t = Some g.
Proof.
  induction s as [|c s IH]; simpl.
  - destruct (m "") eqn:Hm; [|done]. intros [= <-]. eauto.
  - destruct (m (String c s)) eqn:Hm; [|done]. intros [= <-]. eauto.
Qed.

Lemma greedy_all_chars p s : all_chars p (Re.greedy p s) = true.
Proof.
  induction s as [|c s IH]; simpl; [done|].
  destruct (p c) eqn:Hc; simpl; [|done]. by rewrite Hc.
Qed.

Lemma plus_Some p s g : Re.plus p s = Some g → g ≠ "" ∧ all_chars p g = true.
Proof.
  unfold Re.plus. pose proof (greedy_all_chars p s) as Hall.
  destruct (Re.greedy p s) as [|c g']; [done|]. by intros [= <-].
Qed.

Lemma labelled_Some ci label p s g :
  Re.search (Re.labelled ci label p) s = Some g → g ≠ "" ∧ all_chars p g = true.
Proof.
  intros (t & Ht)%search_Some. unfold Re.labelled in Ht.
  destruct (Re.literal ci label t); [|done]. by apply plus_Some in Ht.
Qed.

Lemma int_unsigned c s :
  c ≠ "-"%char →
  Re.int (String c s)
  = if (String.length (String c s) <=? Re.max_str_digits)%nat
    then Re.digits_value 0 (String c s) else None.
Proof.
  intros Hne. destruct c as [[] [] [] [] [] [] [] []]; try done.
Qed.

Lemma int_minus s :
  s ≠ "" →
  Re.int (String "-" s)
  = if (String.length s <=? Re.max_str_digits)%nat
    then Z.opp <$> Re.digits_value 0 s else None.
Proof. by destruct s. Qed.

Lemma digit_count_unsigned c s :
  c ≠ "-"%char → digit_count (String c s) = String.length (String c s).
Proof.
  intros Hne. destruct c as [[] [] [] [] [] [] [] []]; try done.
Qed.

Lemma digits_value_defined acc s :
  0 ≤ acc → all_chars Re.is_digit s = true →
  ∃ v, Re.digits_value acc s = Some v ∧ 0 ≤ v.
Proof.
  revert acc. induction s as [|c s IH]; intros acc Hacc; simpl; [by eauto|].
  intros [Hc Hs]%andb_prop. rewrite Hc. apply IH; [|done].
  unfold Re.is_digit, Re.in_range in Hc. apply andb_prop in Hc as [Hlo _].
  apply N.leb_le in Hlo. unfold Re.digit_value. lia.
Qed.

Lemma digits_not_minus c g : all_chars Re.is_digit (String c g) = true → c ≠ "-"%char.
Proof. by intros Hall ->. Qed.

(** [int] on a run of digits: a value that is not negative when there
    are at most [Re.max_str_digits] of them, [ValueError] otherwise. *)
Lemma int_digits g :
  g ≠ "" → all_chars Re.is_digit g = true →
  (int_accepts g → ∃ v, Re.int g = Some v ∧ 0 ≤ v)
  ∧ (¬ int_accepts g → Re.int g = None).
Proof.
  intros Hne Hall. destruct g as [|c g]; [done|].
  pose proof (digits_not_minus c g Hall) as Hc.
  unfold int_accepts. rewrite int_unsigned, digit_count_unsigned by done.
  destruct (Nat.leb_spec (String.length (String c g)) Re.max_str_digits) as [Hle|Hgt].
  - split; [|done]. intros _. by apply digits_value_defined.
  - split; [|done]. intros Hle. lia.
Qed.

Lemma int_digits_iff g :
  g ≠ "" → all_chars Re.is_digit g = true → is_Some (Re.int g) ↔ int_accepts g.
Proof.
  intros Hne Hall. destruct (int_digits g Hne Hall) as [Hyes Hno]. split.
  - intros [v Hv]. destruct (decide (int_accepts g)) as [|Hn]; [done|].
    rewrite (Hno Hn) in Hv. done.
  - intros (v & -> & _)%Hyes. eauto.
Qed.

Lemma labelled_signed_int s g :
  Re.search (Re.labelled_signed "RSSI:") s = Some g →
  is_Some (Re.int g) ↔ int_accepts g.
Proof.
  intros (t & Ht)%search_Some. unfold Re.labelled_signed in Ht.
  destruct (Re.literal false "RSSI:" t) as [rest|]; [|done].
  assert (∀ u h, Re.plus Re.is_digit u = Some h →
                 is_Some (Re.int h) ↔ int_accepts h) as Hdig.
  { intros u h [Hne Hall]%plus_Some. by apply int_digits_iff. }
  destruct rest as [|c rest]; [by eapply Hdig|].
  destruct (Ascii.eqb_spec c "-") as [->|Hc].
  - destruct (Re.plus Re.is_digit rest) as [h|] eqn:Hh; [|done].
    injection Ht as <-. apply plus_Some in Hh as [Hne Hall].
    destruct (digits_value_defined 0 h) as (v & Hv & _); [lia|done|].
    rewrite int_minus, Hv by done. unfold int_accepts. simpl digit_count.
    destruct (Nat.leb_spec (String.length h) Re.max_str_digits) as [Hle|Hgt].
    + split; [done|]. intros _. simpl. eauto.
    + split; [by intros [? ?]|]. intros Hle. lia.
  - assert (Re.plus Re.is_digit (String c rest) = Some g) as Hg.
    { by destruct c as [[] [] [] [] [] [] [] []]. }
    by eapply Hdig.
Qed.

Lemma unsigned_match_int label line g :
  unsigned_match label line = Some g →
  (is_Some (Re.int g) ↔ int_accepts g)
  ∧ ∀ v, Re.int g = Some v → 0 ≤ v.
Proof.
  intros [Hne Hall]%labelled_Some. split; [by apply int_digits_iff|].
  intros v Hv. destruct (int_digits g Hne Hall) as [Hyes _].
  destruct Hyes as (v' & Hv' & Hpos); [|congruence].
  apply int_digits_iff; eauto.
Qed.

(** X10.  A line is taken as a device line exactly when it contains
    [[DEVICE]], the three patterns for MAC, RSSI and STATUS each match
    somewhere in it, and the RSSI text has at most 4300 digits, so that
    its conversion to an integer does not fail.  The same holds for
    [[STATS]] lines and their four numbers. *)
Theorem line_accepted_iff line :
  (is_Some (device_fields line)
   ↔ Re.contains "[DEVICE]" line = true ∧ is_Some (mac_match line)
     ∧ (∃ r, rssi_match line = Some r ∧ int_accepts r)
     ∧ is_Some (status_match line))
  ∧ (is_Some (stats_fields line)
     ↔ Re.contains "[STATS]" line = true
       ∧ (∃ c, unsigned_match "CONNECTED:" line = Some c ∧ int_accepts c)
       ∧ (∃ n, unsigned_match "NEARBY:" line = Some n ∧ int_accepts n)
       ∧ (∃ p, unsigned_match "TOTAL_PROBES:" line = Some p ∧ int_accepts p)
       ∧ (∃ k, unsigned_match "TOTAL_CONNECTS:" line = Some k ∧ int_accepts k)).
Proof.
  assert (∀ label g, unsigned_match label line = Some g →
                     is_Some (Re.int g) ↔ int_accepts g) as Hu.
  { intros label g Hg. by destruct (unsigned_match_int _ _ _ Hg). }
  split.
  - unfold device_fields. destruct (Re.contains "[DEVICE]" line); simpl.
    + destruct (mac_match line) as [m|], (rssi_match line) as [r|] eqn:Hr,
        (status_match line) as [s|];
        try (split; [by intros [? ?]
                    |by intros (_ & [? ?] & (? & ? & ?) & [? ?])]).
      pose proof (labelled_signed_int _ _ Hr) as Hint.
      destruct (Re.int r) as [v|].
      * split; [|by eauto]. intros _. split_and!; eauto.
        exists r. split; [done|]. apply Hint. eauto.
      * split; [by intros [? ?]|]. intros (_ & _ & (r' & [= <-] & Hacc) & _).
        by apply Hint in Hacc as [? ?].
    + split; [by intros [? ?]|by intros [? _]].
  - unfold stats_fields. destruct (Re.contains "[STATS]" line); simpl.
    + destruct (unsigned_match "CONNECTED:" line) as [c|] eqn:Hc,
        (unsigned_match "NEARBY:" line) as [n|] eqn:Hn,
        (unsigned_match "TOTAL_PROBES:" line) as [p|] eqn:Hp,
        (unsigned_match "TOTAL_CONNECTS:" line) as [k|] eqn:Hk;
        try (split; [by intros [? ?]
                    |by intros (_ & (? & ? & ?) & (? & ? & ?) & (? & ? & ?)
                            & (? & ? & ?))]).
      pose proof (Hu _ _ Hc) as Hic. pose proof (Hu _ _ Hn) as Hin.
      pose proof (Hu _ _ Hp) as Hip. pose proof (Hu _ _ Hk) as Hik.
      split.
      * intros Hsome. split; [done|].
        destruct (Re.int c), (Re.int n), (Re.int p), (Re.int k);
          try (by destruct Hsome).
        split_and!; eexists; (split; [done|]); naive_solver.
      * intros (_ & (c' & [= <-] & Hac) & (n' & [= <-] & Han)
                & (p' & [= <-] & Hap) & (k' & [= <-] & Hak)).
        apply Hic in Hac as [? ->]. apply Hin in Han as [? ->].
        apply Hip in Hap as [? ->]. apply Hik in Hak as [? ->]. eauto.
    + split; [by intros [? ?]|by intros [? _]].
Qed.

Lemma upper_char_hex c :
  Re.is_hex_colon c = true → is_upper_hex_colon (Re.upper_char c) = true.
Proof. by destruct c as [[] [] [] [] [] [] [] []]. Qed.

Lemma upper_char_fixed c :
  is_upper_hex_colon c = true → Re.upper_char c = c.
Proof. by destruct c as [[] [] [] [] [] [] [] []]. Qed.

Lemma upper_hex g :
  all_chars Re.is_hex_colon g = true →
  all_chars is_upper_hex_colon (Re.upper g) = true.
Proof.
  induction g as [|c g IH]; simpl; [done|].
  intros [Hc Hg]%andb_prop. by rewrite upper_char_hex, IH.
Qed.

Lemma upper_fixed g :
  all_chars is_upper_hex_colon g = true → Re.upper g = g.
Proof.
  induction g as [|c g IH]; simpl; [done|].
  intros [Hc Hg]%andb_prop. by rewrite upper_char_fixed, IH.
Qed.

(** X11.  The identifier [parse_device_line] passes on is never empty,
    consists of the characters [0-9], [A-F] and [:] only, and is its own
    upper-case form; the status it passes on is a non-empty run of word
    characters. *)
Theorem device_fields_format line mac rssi s :
  device_fields line = Some (mac, rssi, s) →
  mac ≠ "" ∧ all_chars is_upper_hex_colon mac = true ∧ Re.upper mac = mac
  ∧ s ≠ "" ∧ all_chars Re.is_word s = true.
Proof.
  unfold device_fields. destruct (negb _); [done|].
  destruct (mac_match line) as [m|] eqn:Hm; [|done].
  destruct (rssi_match line) as [r|]; [|done].
  destruct (status_match line) as [s'|] eqn:Hs; [|done].
  destruct (Re.int r); [|done]. intros [= <- _ <-].
  apply labelled_Some in Hm as [Hmne Hmall]. apply labelled_Some in Hs as [Hsne Hsall].
  pose proof (upper_hex m Hmall) as Hup.
  split_and!; try done.
  - by destruct m.
  - by apply upper_fixed.
Qed.

Lemma device_fields_format_witness :
  "AA:BB:CC:DD:EE:01" ≠ ""
  ∧ all_chars is_upper_hex_colon "AA:BB:CC:DD:EE:01" = true
  ∧ Re.upper "AA:BB:CC:DD:EE:01" = "AA:BB:CC:DD:EE:01"
  ∧ "NEARBY" ≠ "" ∧ all_chars Re.is_word "NEARBY" = true.
Proof.
  apply (device_fields_format
           "[DEVICE] mac:aa:bb:cc:dd:ee:01 | RSSI:-40 | STATUS:NEARBY"
           "AA:BB:CC:DD:EE:01" (-40) "NEARBY").
  vm_compute. reflexivity.
Defined.

(** X12.  The four numbers of a statistics line are never negative.
    The rate computed from its totals never divides by zero, and where
    it is computed it is not negative. *)
Theorem stats_fields_nonnegative line connected nearby probes connects :
  stats_fields line = Some (connected, nearby, probes, connects) →
  0 ≤ connected ∧ 0 ≤ nearby ∧ 0 ≤ probes ∧ 0 ≤ connects
  ∧ connection_rate connects probes ≠ Raise ZeroDivisionError
  ∧ ∀ r, connection_rate connects probes = Value r → (0 <= r)%Q.
Proof.
  assert (∀ label g v, unsigned_match label line = Some g → Re.int g = Some v →
                       0 ≤ v) as Hu.
  { intros label g v Hg Hv. destruct (unsigned_match_int _ _ _ Hg) as [_ Hpos].
    by apply Hpos. }
  unfold stats_fields. destruct (negb _); [done|].
  destruct (unsigned_match "CONNECTED:" line) as [c|] eqn:Hc; [|done].
  destruct (unsigned_match "NEARBY:" line) as [n|] eqn:Hn; [|done].
  destruct (unsigned_match "TOTAL_PROBES:" line) as [p|] eqn:Hp; [|done].
  destruct (unsigned_match "TOTAL_CONNECTS:" line) as [k|] eqn:Hk; [|done].
  destruct (Re.int c) eqn:Hic; [|done]. destruct (Re.int n) eqn:Hin; [|done].
  destruct (Re.int p) eqn:Hip; [|done]. destruct (Re.int k) eqn:Hik; [|done].
  intros [= -> -> -> ->].
  pose proof (Hu _ _ _ Hc Hic). pose proof (Hu _ _ _ Hn Hin).
  pose proof (Hu _ _ _ Hp Hip) as Hprobes. pose proof (Hu _ _ _ Hk Hik) as Hconnects.
  split_and!; try done.
  - by destruct (connection_rate_cases connects probes)
      as [[_ ->]|[(_ & _ & ->)|(_ & _ & ->)]].
  - intros r Hr.
    destruct (connection_rate_cases connects probes)
      as [[_ Hv]|[(Hpos & _ & Hv)|(_ & _ & Hv)]]; rewrite Hv in Hr; [| |done].
    + by injection Hr as <-.
    + injection Hr as <-.
      apply Qmult_le_0_compat; [|by unfold Qle].
      apply Qle_shift_div_l.
      * change 0%Q with (inject_Z 0). rewrite <- Zlt_Qlt. lia.
      * rewrite Qmult_0_l. change 0%Q with (inject_Z 0). by rewrite <- Zle_Qle.
Qed.

Lemma stats_fields_nonnegative_witness :
  0 ≤ 3 ∧ 0 ≤ 7 ∧ 0 ≤ 50 ∧ 0 ≤ 10
  ∧ connection_rate 10 50 ≠ Raise ZeroDivisionError
  ∧ ∀ r, connection_rate 10 50 = Value r → (0 <= r)%Q.
Proof.
  apply (stats_fields_nonnegative
           "[STATS] CONNECTED:3 | NEARBY:7 | TOTAL_PROBES:50 | TOTAL_CONNECTS:10").
  vm_compute. reflexivity.
Defined.

Lemma add_device_changes now mac rssi s st : add_device now mac rssi s st ≠ st.
Proof.
  intros Heq. pose proof (f_equal (fun x => Zsum (hourly_stats x).*2) Heq) as Hsum.
  simpl in Hsum. rewrite bump_sum in Hsum. lia.
Qed.

Lemma add_statistics_changes now cn nb pr co st :
  state_of (add_statistics now cn nb pr co st) ≠ st.
Proof.
  intros Heq. pose proof (f_equal (fun x => length (all_timestamps x)) Heq) as Hlen.
  simpl in Hlen.
  destruct (add_statistics_state now cn nb pr co st) as (Ht & _).
  rewrite Ht, length_app in Hlen. simpl in Hlen. lia.
Qed.

Lemma add_statistics_keeps_hourly now cn nb pr co st :
  hourly_stats (state_of (add_statistics now cn nb pr co st)) = hourly_stats st.
Proof. by destruct (add_statistics_devices now cn nb pr co st) as (_ & _ & ->). Qed.

(** X13.  The reader loop leaves the state as it is exactly for the lines
    that parse neither as a device line nor as a statistics line; in
    particular for a line with neither marker. *)
Theorem unrecognized_line_no_change st r :
  (serial_reader_step st r = st
   ↔ device_fields (text r) = None ∧ stats_fields (text r) = None)
  ∧ (Re.contains "[DEVICE]" (text r) = false →
     Re.contains "[STATS]" (text r) = false →
     serial_reader_step st r = st).
Proof.
  assert (device_fields (text r) = None ∧ stats_fields (text r) = None →
          serial_reader_step st r = st) as Hback.
  { intros [Hd Hs]. rewrite serial_reader_step_calls. unfold calls_of_reading.
    destruct (text r); [done|]. by rewrite Hd, Hs. }
  split.
  - split; [|done]. rewrite serial_reader_step_calls. unfold calls_of_reading.
    destruct (text r) as [|ch line]; [done|].
    destruct (device_fields (String ch line)) as [[[mac rssi] s]|],
      (stats_fields (String ch line)) as [[[[cn nb] pr] co]|]; simpl; try done.
    + intros Heq.
      pose proof (f_equal (fun x => Zsum (hourly_stats x).*2) Heq) as Hsum.
      simpl in Hsum. rewrite add_statistics_keeps_hourly in Hsum.
      simpl in Hsum. rewrite bump_sum in Hsum. lia.
    + intros Heq. by apply add_device_changes in Heq.
    + intros Heq. by apply add_statistics_changes in Heq.
  - intros Hd Hs. apply Hback. unfold device_fields, stats_fields.
    by rewrite Hd, Hs.
Qed.

Lemma unrecognized_line_no_change_witness :
  serial_reader_step (init 0)
    {| text := "garbage input"; clock_device := 1; clock_stats := 2 |} = init 0.
Proof.
  destruct (unrecognized_line_no_change (init 0)
              {| text := "garbage input"; clock_device := 1; clock_stats := 2 |})
    as [_ Hnone].
  apply Hnone; reflexivity.
Defined.

(** ** The report *)

Lemma generate_analytics_report_more np_mean_int now st rep :
  generate_analytics_report np_mean_int now st = Some rep →
  total_unique_devices rep = size (devices_by_mac st)
  ∧ max_dwell_time_seconds rep
    = match dwell_time <$> device_values st with
      | [] => 0%Q
      | x :: l => Qmax_from x l
      end
  ∧ hourly_breakdown rep = hourly_stats st.
Proof.
  unfold generate_analytics_report. intros Hrep.
  destruct (mean_int_or np_mean_int 0%Q _), (mean_or 0%Q (dwell_time <$> _)),
    (connection_rate _ _), (mean_int_or np_mean_int (-100)%Q _);
    simpl in Hrep; try done.
  by injection Hrep as <-.
Qed.

Lemma apply_call_size st c :
  (size (devices_by_mac (apply_call st c))
   ≤ size (devices_by_mac st) + length (detection_times [c]))%nat.
Proof.
  destruct c as [now mac rssi s|now cn nb pr co|]; simpl.
  - destruct (devices_by_mac st !! mac) eqn:Hm; simpl; [lia|].
    rewrite map_size_insert_None by done. lia.
  - destruct (add_statistics_devices now cn nb pr co st) as (-> & _). lia.
  - lia.
Qed.

Lemma run_size t0 cs :
  (size (devices_by_mac (run (init t0) cs)) ≤ length (detection_times cs))%nat.
Proof.
  induction cs as [|c cs IH] using rev_ind; [done|].
  rewrite run_app. unfold detection_times in *. rewrite omap_app, length_app.
  etrans; [apply apply_call_size|]. unfold detection_times. lia.
Qed.

Lemma count_le_sum (k c : Z) (d : list (Z * Z)) :
  Forall (fun kc => 1 ≤ kc.2) d → (k, c) ∈ d → 1 ≤ c ≤ Zsum d.*2.
Proof.
  induction 1 as [|[k' c'] d Hc Hd IH]; intros Hin; [by apply elem_of_nil in Hin|].
  rewrite fmap_cons, Zsum_cons. simpl in *.
  assert (0 ≤ Zsum d.*2) as Hnonneg.
  { clear -Hd. induction Hd as [|[? ?] d ? ? IH]; [done|].
    rewrite fmap_cons, Zsum_cons. simpl in *. lia. }
  apply elem_of_cons in Hin as [[= -> ->]|Hin]; [lia|].
  apply IH in Hin. lia.
Qed.

Lemma hourly_stats_count_sum t0 cs :
  Forall (fun kc => 1 ≤ kc.2) (hourly_stats (run (init t0) cs))
  ∧ Zsum (hourly_stats (run (init t0) cs)).*2 = Z.of_nat (length (detection_times cs)).
Proof.
  induction cs as [|c cs [Hpos Hsum]] using rev_ind; [by split|].
  rewrite run_app. simpl. rewrite apply_call_hourly_stats, detection_times_snoc.
  destruct c as [now mac rssi s|now cn nb pr co|]; rewrite ?app_nil_r; try done.
  split; [by apply bump_positive|].
  rewrite bump_sum, Hsum, length_app. simpl. lia.
Qed.

(** X14.  In every report that is produced for a reachable state the
    number of unique devices is at most the number of [add_device]
    calls; the peak hour is ['N/A'] exactly when there was no such call,
    and otherwise its count is at least 1 and at most the number of
    those calls. *)
Theorem report_counts_bounded t0 cs now np_mean_int rep :
  generate_analytics_report np_mean_int now (run (init t0) cs) = Some rep →
  (total_unique_devices rep ≤ length (detection_times cs))%nat
  ∧ (peak_hour rep = None ↔ detection_times cs = [])
  ∧ 0 ≤ peak_hour_count rep ≤ Z.of_nat (length (detection_times cs))
  ∧ (peak_hour rep = None ∨ 1 ≤ peak_hour_count rep).
Proof.
  set (st := run (init t0) cs). intros Hrep.
  destruct (generate_analytics_report_fields _ now st rep Hrep) as (Hpk & Hcnt & _).
  destruct (generate_analytics_report_more _ now st rep Hrep) as (Hu & _).
  destruct (hourly_stats_count_sum t0 cs) as (Hpos & Hsum). fold st in Hpos, Hsum.
  split; [rewrite Hu; apply run_size|].
  destruct (hourly_stats st) as [|x d] eqn:Hh.
  - rewrite Hpk, Hcnt. simpl in Hsum.
    assert (detection_times cs = []) as -> by (apply length_zero_iff_nil; lia).
    split_and!; try done. by left.
  - destruct (max_from_first x d) as (l1 & l2 & Heq & _).
    assert (((Dict.max_from x d).1, (Dict.max_from x d).2) ∈ x :: d) as Hin.
    { rewrite Heq, <- surjective_pairing. apply elem_of_app. right.
      apply list_elem_of_here. }
    apply count_le_sum in Hin; [|done]. rewrite Hsum in Hin.
    rewrite Hpk, Hcnt. split_and!; try lia.
    split; [done|]. intros Hnil. rewrite Hnil in Hin. simpl in Hin. lia.
Qed.

Lemma report_counts_bounded_witness :
  let cs := [AddDevice 39600000000 "AA:01" (-40) "NEARBY";
             AddStatistics 39600000001 0 1 1 0;
             AddDevice 43200000000 "AA:01" (-50) "CONNECTED"] in
  ∃ rep,
    generate_analytics_report exact_mean 50000000000 (run (init 0) cs) = Some rep
    ∧ (total_unique_devices rep ≤ 2)%nat
    ∧ 0 ≤ peak_hour_count rep ≤ 2.
Proof.
  intros cs.
  destruct (generate_analytics_report_exact 50000000000 (run (init 0) cs))
    as [rep Hrep]; [done|].
  destruct (report_counts_bounded 0 cs 50000000000 exact_mean rep Hrep)
    as (Hu & _ & Hc & _).
  exists rep. split; [exact Hrep|]. split; [exact Hu|exact Hc].
Defined.

Lemma Qmax_from_bounds best l :
  (best <= Qmax_from best l)%Q
  ∧ Forall (fun x => (x <= Qmax_from best l)%Q) l
  ∧ Qmax_from best l ∈ best :: l.
Proof.
  revert best. induction l as [|x l IH]; intros best; simpl.
  - split_and!; [apply Qle_refl|constructor|apply list_elem_of_here].
  - destruct (Qle_bool x best) eqn:Hle.
    + apply Qle_bool_iff in Hle. destruct (IH best) as (Hb & Hall & Hin).
      split_and!; [done| |].
      * constructor; [by eapply Qle_trans|done].
      * apply elem_of_cons in Hin as [->|Hin]; [apply list_elem_of_here|].
        by do 2 apply list_elem_of_further.
    + assert (best <= x)%Q as Hbx.
      { destruct (Qlt_le_dec best x) as [?%Qlt_le_weak|Hxb]; [done|].
        apply Qle_bool_iff in Hxb. congruence. }
      destruct (IH x) as (Hb & Hall & Hin). split_and!.
      * by eapply Qle_trans.
      * by constructor.
      * by apply list_elem_of_further.
Qed.

(** X15.  In every report that is produced the maximum dwell time is at
    least the dwell time of every device and, when there is a device, it
    is the dwell time of one of them; without devices it is 0. *)
Theorem report_max_dwell_bounds np_mean_int now st rep :
  generate_analytics_report np_mean_int now st = Some rep →
  Forall (fun d => (dwell_time d <= max_dwell_time_seconds rep)%Q) (device_values st)
  ∧ match device_values st with
    | [] => max_dwell_time_seconds rep = 0%Q
    | _ => ∃ d, d ∈ device_values st ∧ dwell_time d = max_dwell_time_seconds rep
    end.
Proof.
  intros Hrep.
  destruct (generate_analytics_report_more _ now st rep Hrep) as (_ & -> & _).
  destruct (device_values st) as [|d l]; [by split|].
  rewrite fmap_cons.
  destruct (Qmax_from_bounds (dwell_time d) (dwell_time <$> l)) as (Hb & Hall & Hin).
  split.
  - constructor; [done|]. rewrite Forall_forall in Hall. apply Forall_forall.
    intros d' Hd'. apply Hall. by apply list_elem_of_fmap_2.
  - rewrite <- fmap_cons in Hin. apply list_elem_of_fmap in Hin as (d' & Heq & Hd').
    by exists d'.
Qed.

Lemma report_max_dwell_bounds_witness :
  let st := run (init 0) [AddDevice 39600000000 "AA:01" (-40) "NEARBY";
                          AddDevice 39601000000 "AA:02" (-45) "NEARBY";
                          AddDevice 43200000000 "AA:01" (-50) "CONNECTED"] in
  ∃ rep,
    generate_analytics_report exact_mean 50000000000 st = Some rep
    ∧ Forall (fun d => (dwell_time d <= max_dwell_time_seconds rep)%Q) (device_values st).
Proof.
  intros st.
  destruct (generate_analytics_report_exact 50000000000 st) as [rep Hrep]; [done|].
  destruct (report_max_dwell_bounds exact_mean 50000000000 st rep Hrep) as [Hall _].
  exists rep. split; [exact Hrep|exact Hall].
Defined.

(** ** The text report *)

Lemma item_le_total : Total item_le.
Proof. intros [k1 c1] [k2 c2]. unfold item_le. simpl. lia. Qed.

Lemma item_le_trans : Transitive item_le.
Proof. intros [k1 c1] [k2 c2] [k3 c3]. unfold item_le. simpl. lia. Qed.

Lemma sorted_items_keys (l : list (Z * Z)) :
  StronglySorted item_le l → NoDup l.*1 → StronglySorted Z.lt l.*1.
Proof.
  induction 1 as [|x l Hs IH Hall]; intros Hnd; [constructor|].
  rewrite fmap_cons in Hnd |- *. apply NoDup_cons in Hnd as [Hx Hnd].
  constructor; [by apply IH|].
  apply Forall_fmap, Forall_forall. intros y Hy. simpl.
  rewrite Forall_forall in Hall. specialize (Hall y Hy).
  assert (x.1 ≠ y.1).
  { intros Heq. apply Hx. rewrite Heq. by apply list_elem_of_fmap_2. }
  unfold item_le in Hall. lia.
Qed.

Lemma run_hourly_keys_NoDup t0 cs : NoDup (hourly_stats (run (init t0) cs)).*1.
Proof.
  induction cs as [|c cs IH] using rev_ind; [constructor|].
  rewrite run_app. simpl. rewrite apply_call_hourly_stats.
  destruct c; try done. by apply set_keys_NoDup.
Qed.

(** X17.  The hourly breakdown that [generate_text_report] prints from
    a report of a reachable state lists every stored hour with its
    count, each hour once, in increasing order of the hour. *)
Theorem hourly_breakdown_sorted t0 cs now np_mean_int rep :
  let st := run (init t0) cs in
  generate_analytics_report np_mean_int now st = Some rep →
  hourly_breakdown_lines rep ≡ₚ hourly_stats st
  ∧ StronglySorted Z.lt (hourly_breakdown_lines rep).*1.
Proof.
  intros st Hrep.
  destruct (generate_analytics_report_more _ now st rep Hrep) as (_ & _ & Hb).
  unfold hourly_breakdown_lines. rewrite Hb.
  pose proof (merge_sort_Permutation item_le (hourly_stats st)) as Hperm.
  split; [done|].
  apply sorted_items_keys.
  - apply (@StronglySorted_merge_sort _ item_le _ item_le_trans item_le_total).
  - rewrite Hperm. apply run_hourly_keys_NoDup.
Qed.

Lemma hourly_breakdown_sorted_witness :
  let cs := [AddDevice 43200000000 "AA:01" (-40) "NEARBY";
             AddDevice 39600000000 "AA:02" (-50) "NEARBY"] in
  ∃ rep,
    generate_analytics_report exact_mean 50000000000 (run (init 0) cs) = Some rep
    ∧ hourly_stats (run (init 0) cs) = [(12, 1); (11, 1)]
    ∧ StronglySorted Z.lt (hourly_breakdown_lines rep).*1.
Proof.
  intros cs.
  destruct (generate_analytics_report_exact 50000000000 (run (init 0) cs))
    as [rep Hrep]; [done|].
  destruct (hourly_breakdown_sorted 0 cs 50000000000 exact_mean rep Hrep) as [_ Hs].
  exists rep. split; [exact Hrep|]. split; [reflexivity|exact Hs].
Defined.

(** ** The web dashboard *)

Lemma device_raises_fields line : device_raises line = true → device_fields line = None.
Proof.
  unfold device_raises, device_fields.
  destruct (Re.contains "[DEVICE]" line); [|done]. simpl.
  destruct (mac_match line), (rssi_match line) as [r|], (status_match line); try done.
  intros Hr%bool_decide_eq_true. by rewrite Hr.
Qed.

Lemma stats_raises_fields line : stats_raises line = true → stats_fields line = None.
Proof.
  unfold stats_raises, stats_fields.
  destruct (Re.contains "[STATS]" line); [|done]. simpl.
  destruct (unsigned_match "CONNECTED:" line) as [c|],
    (unsigned_match "NEARBY:" line) as [n|],
    (unsigned_match "TOTAL_PROBES:" line) as [p|],
    (unsigned_match "TOTAL_CONNECTS:" line) as [k|]; try done.
  intros Hr%bool_decide_eq_true.
  destruct (Re.int c), (Re.int n), (Re.int p), (Re.int k); naive_solver.
Qed.

Lemma web_parse_device_cases now line st :
  Web.parse_device now line st
  = if device_raises line then None
    else Some match device_fields line with
              | Some (mac, rssi, s) => (true, Web.add_device now mac rssi s st)
              | None => (false, st)
              end.
Proof.
  unfold Web.parse_device, device_raises, device_fields.
  destruct (Re.contains "[DEVICE]" line); [|done]. simpl.
  destruct (mac_match line), (rssi_match line) as [r|], (status_match line); try done.
  destruct (Re.int r); [by rewrite bool_decide_eq_false_2|].
  by rewrite bool_decide_eq_true_2.
Qed.

Lemma web_parse_stats_cases now line st :
  Web.parse_stats now line st
  = if stats_raises line then None
    else Some match stats_fields line with
              | Some (cn, nb, pr, co) => (true, Web.add_stats now cn nb pr co st)
              | None => (false, st)
              end.
Proof.
  unfold Web.parse_stats, stats_raises, stats_fields.
  destruct (Re.contains "[STATS]" line); [|done]. simpl.
  destruct (unsigned_match "CONNECTED:" line) as [c|],
    (unsigned_match "NEARBY:" line) as [n|],
    (unsigned_match "TOTAL_PROBES:" line) as [p|],
    (unsigned_match "TOTAL_CONNECTS:" line) as [k|]; try done.
  by destruct (Re.int c), (Re.int n), (Re.int p), (Re.int k).
Qed.

Lemma device_readings_cons r rs :
  device_readings (r :: rs)
  = match device_fields (text r) with
    | Some f => [(clock_device r, f.1.1, f.1.2, f.2)]
    | None => []
    end ++ device_readings rs.
Proof. unfold device_readings. simpl. by destruct (device_fields _). Qed.

Lemma stats_readings_cons r rs :
  stats_readings (r :: rs)
  = match stats_fields (text r) with
    | Some f => [(clock_stats r, f)]
    | None => []
    end ++ stats_readings rs.
Proof. unfold stats_readings. simpl. by destruct (stats_fields _). Qed.

(** The loop in terms of lines on which nothing raises: its state is
    that of such lines with the device lines of [web_device_lines] and
    the statistics lines of [web_stats_lines]. *)
Lemma web_loop_run rs st :
  ∃ l, Web.serial_reader_loop rs st = foldl web_step st l
       ∧ device_readings l = device_readings (web_device_lines rs)
       ∧ stats_readings l = stats_readings (web_stats_lines rs).
Proof.
  revert st. induction rs as [|r rs IH]; intros st; [by exists []|].
  cbn [Web.serial_reader_loop web_device_lines web_stats_lines].
  destruct (text r) as [|ch line] eqn:Htext.
  - destruct (IH st) as (l & Hl & Hd & Hs). exists (r :: l).
    change (device_raises "") with false. change (stats_raises "") with false.
    cbn [orb]. rewrite !device_readings_cons, !stats_readings_cons, Hd, Hs.
    split; [|done]. cbn [foldl]. unfold web_step at 2.
    by rewrite Htext, device_fields_empty, stats_fields_empty.
  - rewrite web_parse_device_cases.
    destruct (device_raises (String ch line)) eqn:Hdr.
    { exists []. split; [done|]. split; [|done].
      rewrite device_readings_cons, Htext.
      by rewrite (device_raises_fields _ Hdr). }
    cbn [orb].
    assert (∀ st1, foldl web_step st1 [r]
                   = match stats_fields (String ch line) with
                     | Some (cn, nb, pr, co) =>
                         Web.add_stats (clock_stats r) cn nb pr co
                           match device_fields (String ch line) with
                           | Some (mac, rssi, s) =>
                               Web.add_device (clock_device r) mac rssi s st1
                           | None => st1
                           end
                     | None =>
                         match device_fields (String ch line) with
                         | Some (mac, rssi, s) =>
                             Web.add_device (clock_device r) mac rssi s st1
                         | None => st1
                         end
                     end) as Hstep.
    { intros st1. cbn [foldl]. unfold web_step. rewrite Htext.
      by destruct (stats_fields (String ch line)) as [[[[? ?] ?] ?]|]. }
    destruct (stats_raises (String ch line)) eqn:Hsr.
    + exists [r]. rewrite Hstep, (stats_raises_fields _ Hsr).
      by destruct (device_fields (String ch line)) as [[[? ?] ?]|];
        rewrite web_parse_stats_cases, Hsr.
    + set (st2 := foldl web_step st [r]).
      destruct (IH st2) as (l & Hl & Hd & Hs). exists (r :: l).
      rewrite !(device_readings_cons r), !(stats_readings_cons r), Hd, Hs.
      split; [|done]. change (foldl web_step st (r :: l)) with (foldl web_step st2 l).
      rewrite <- Hl. unfold st2. rewrite Hstep.
      destruct (device_fields (String ch line)) as [[[? ?] ?]|];
        rewrite web_parse_stats_cases, Hsr;
        by destruct (stats_fields (String ch line)) as [[[[? ?] ?] ?]|].
Qed.

Lemma web_serial_reader_run rs :
  ∃ l, Web.serial_reader rs = foldl web_step Web.init l
       ∧ device_readings l = device_readings (web_device_lines rs)
       ∧ stats_readings l = stats_readings (web_stats_lines rs).
Proof. apply web_loop_run. Qed.

(** When no conversion raises, every line is parsed by both parsers; in
    general the lines parsed are the first lines read. *)
Lemma web_lines_no_raise rs :
  Forall (fun r => device_raises (text r) = false ∧ stats_raises (text r) = false) rs →
  web_device_lines rs = rs ∧ web_stats_lines rs = rs.
Proof.
  induction 1 as [|r rs [Hd Hs] _ [IHd IHs]]; [done|].
  cbn [web_device_lines web_stats_lines]. by rewrite Hd, Hs, IHd, IHs.
Qed.

Lemma web_lines_prefix rs :
  web_stats_lines rs `prefix_of` web_device_lines rs
  ∧ web_device_lines rs `prefix_of` rs.
Proof.
  induction rs as [|r rs [IHs IHd]]; [done|].
  cbn [web_device_lines web_stats_lines].
  destruct (device_raises (text r)), (stats_raises (text r)); cbn [orb]; split;
    try apply prefix_nil; try done;
    apply prefix_cons; done || apply prefix_nil.
Qed.

(** [parse_device] raises exactly on a device line whose RSSI text has
    more than [Re.max_str_digits] digits. *)
Lemma device_raises_iff line :
  device_raises line = true
  ↔ Re.contains "[DEVICE]" line = true ∧ is_Some (mac_match line)
    ∧ (∃ r, rssi_match line = Some r ∧ ¬ int_accepts r)
    ∧ is_Some (status_match line).
Proof.
  unfold device_raises. destruct (Re.contains "[DEVICE]" line); simpl;
    [|by split; [|intros [? _]]].
  destruct (mac_match line) as [m|], (rssi_match line) as [r|] eqn:Hr,
    (status_match line) as [s|];
    try (split; [done|by intros (_ & [? ?] & (? & ? & ?) & [? ?])]).
  pose proof (labelled_signed_int _ _ Hr) as Hint.
  rewrite bool_decide_eq_true. split.
  - intros Hnone. split_and!; eauto. exists r. split; [done|].
    intros [v Hv]%Hint. congruence.
  - intros (_ & _ & (r' & [= <-] & Hacc) & _).
    destruct (Re.int r) eqn:Hv; [|done]. destruct Hacc. apply Hint. eauto.
Qed.

Lemma device_readings_snoc rs r :
  device_readings (rs ++ [r])
  = device_readings rs
    ++ match device_fields (text r) with
       | Some f => [(clock_device r, f.1.1, f.1.2, f.2)]
       | None => []
       end.
Proof. unfold device_readings. rewrite omap_app. simpl. by destruct (device_fields _). Qed.

Lemma stats_readings_snoc rs r :
  stats_readings (rs ++ [r])
  = stats_readings rs
    ++ match stats_fields (text r) with
       | Some f => [(clock_stats r, f)]
       | None => []
       end.
Proof. unfold stats_readings. rewrite omap_app. simpl. by destruct (stats_fields _). Qed.

Lemma web_add_device_lookup now mac rssi s st mac' :
  Web.devices (Web.add_device now mac rssi s st) !! mac'
  = if decide (mac = mac')
    then web_touch (Web.devices st !! mac) (now, mac, rssi, s)
    else Web.devices st !! mac'.
Proof.
  unfold Web.add_device, web_touch. simpl.
  destruct (Web.devices st !! mac) eqn:Hm; rewrite lookup_insert;
    by destruct (decide (mac = mac')) as [<-|].
Qed.

Lemma web_run_devices rs mac :
  Web.devices (foldl web_step Web.init rs) !! mac
  = foldl web_touch None (filter (fun e => e.1.1.2 = mac) (device_readings rs)).
Proof.
  induction rs as [|r rs IH] using rev_ind; [apply lookup_empty|].
  rewrite foldl_snoc. unfold web_step at 1.
  rewrite device_readings_snoc, filter_app, foldl_app, <- IH.
  cbn zeta.
  assert (∀ st1 : Web.CrowdData,
            Web.devices match stats_fields (text r) with
                        | Some (cn, nb, pr, co) =>
                            Web.add_stats (clock_stats r) cn nb pr co st1
                        | None => st1
                        end = Web.devices st1) as ->.
  { intros st1. by destruct (stats_fields (text r)) as [[[[? ?] ?] ?]|]. }
  destruct (device_fields (text r)) as [[[mac' rssi] s]|]; [|done].
  rewrite web_add_device_lookup. simpl.
  destruct (decide (mac' = mac)) as [->|Hne].
  - by rewrite filter_cons_True.
  - by rewrite filter_cons_False.
Qed.

Lemma web_touched h d :
  foldl web_touch None h = Some d →
  Web.detections d = Z.of_nat (length h)
  ∧ last (h.*1.*2) = Some (Web.rssi d)
  ∧ last (h.*2) = Some (Web.status d)
  ∧ head (h.*1.*1.*1) = Some (Web.first_seen d)
  ∧ last (h.*1.*1.*1) = Some (Web.last_seen d).
Proof.
  revert d. induction h as [|e h IH] using rev_ind; intros d; [done|].
  rewrite foldl_snoc, length_app, !fmap_app, !list_fmap_singleton, !last_snoc.
  destruct (foldl web_touch None h) as [d0|] eqn:Hh; unfold web_touch;
    intros [= <-]; simpl.
  - destruct (IH d0 eq_refl) as (Hn & _ & _ & Hf & _).
    rewrite head_app, Hf, Hn. split_and!; try done. lia.
  - destruct h as [|e' h _] using rev_ind; [done|].
    rewrite foldl_snoc in Hh. done.
Qed.

(** X18.  In the web dashboard a device has an entry exactly when some
    line that the reader parsed named it; the entry counts the lines that
    named it, holds the RSSI and status of the latest of them, and the
    clock values of the first and of the latest.  The lines parsed are
    those up to the first one on which a conversion raises. *)
Theorem web_device_entry rs mac :
  let st := Web.serial_reader rs in
  let h := readings_for mac (web_device_lines rs) in
  (Web.devices st !! mac = None ↔ h = [])
  ∧ Web.detections <$> Web.devices st !! mac
    = match h with [] => None | _ => Some (Z.of_nat (length h)) end
  ∧ Web.rssi <$> Web.devices st !! mac = last (h.*1.*2)
  ∧ Web.status <$> Web.devices st !! mac = last (h.*2)
  ∧ Web.first_seen <$> Web.devices st !! mac = head (h.*1.*1.*1)
  ∧ Web.last_seen <$> Web.devices st !! mac = last (h.*1.*1.*1).
Proof.
  intros st h. subst st h.
  destruct (web_serial_reader_run rs) as (l & -> & Hd & _).
  rewrite web_run_devices. unfold readings_for. rewrite Hd.
  destruct (foldl web_touch None _) as [d|] eqn:Hf.
  - destruct (web_touched _ _ Hf) as (Hn & Hr & Hs & Hfs & Hl).
    rewrite Hr, Hs, Hfs, Hl. simpl. rewrite Hn.
    destruct (filter _ _) eqn:Hh; [done|]. by split_and!.
  - destruct (filter _ _) as [|e h _] using rev_ind; [by split_and!|].
    rewrite foldl_snoc in Hf. done.
Qed.

Lemma web_run_series rs :
  let st := foldl web_step Web.init rs in
  Web.rssi_history st = last_n 1000 ((device_readings rs).*1.*2)
  ∧ Web.timestamps st = last_n Web.MAX_DATA_POINTS ((stats_readings rs).*1)
  ∧ Web.connected st
    = last_n Web.MAX_DATA_POINTS ((fun e => e.2.1.1.1) <$> stats_readings rs)
  ∧ Web.nearby st
    = last_n Web.MAX_DATA_POINTS ((fun e => e.2.1.1.2) <$> stats_readings rs).
Proof.
  induction rs as [|r rs IH] using rev_ind; [done|].
  simpl in *. destruct IH as (Hr & Ht & Hc & Hn).
  rewrite foldl_snoc, device_readings_snoc, stats_readings_snoc, !fmap_app.
  unfold web_step at 1 3 5 7.
  destruct (device_fields (text r)) as [[[mac rssi] s]|],
    (stats_fields (text r)) as [[[[cn nb] pr] co]|]; simpl; rewrite ?app_nil_r;
    split_and!; try done;
    rewrite ?Hr, ?Ht, ?Hc, ?Hn, deque_append_last_n by apply length_last_n;
    apply last_n_snoc.
Qed.

(** X19.  The RSSI history of the web dashboard is the last 1000 RSSI
    values of all device lines the reader parsed, whatever device they
    name, in the order read; it never holds more than 1000 values. *)
Theorem web_rssi_history_window rs :
  Web.rssi_history (Web.serial_reader rs)
  = last_n 1000 ((device_readings (web_device_lines rs)).*1.*2)
  ∧ (length (Web.rssi_history (Web.serial_reader rs)) ≤ 1000)%nat.
Proof.
  destruct (web_serial_reader_run rs) as (l & -> & Hd & _).
  destruct (web_run_series l) as (Hr & _). rewrite Hd in Hr.
  split; [done|]. rewrite Hr. apply length_last_n.
Qed.

(** X20.  [get_dataframe] never fails on a state the reader produced: its
    four columns have the same length, at most 300; they hold the clock
    values, connected and nearby counts of the latest statistics lines
    the reader parsed, and the total column is the sum of the other two,
    row by row. *)
Theorem web_dataframe_columns rs :
  let st := Web.serial_reader rs in
  let stats := stats_readings (web_stats_lines rs) in
  ∃ df,
    Web.get_dataframe st = Some df
    ∧ Web.col_timestamp df = last_n Web.MAX_DATA_POINTS (stats.*1)
    ∧ Web.col_connected df
      = last_n Web.MAX_DATA_POINTS ((fun e => e.2.1.1.1) <$> stats)
    ∧ Web.col_nearby df
      = last_n Web.MAX_DATA_POINTS ((fun e => e.2.1.1.2) <$> stats)
    ∧ Web.col_total df = zip_with Z.add (Web.col_connected df) (Web.col_nearby df)
    ∧ (length (Web.col_timestamp df) ≤ 300)%nat
    ∧ length (Web.col_connected df) = length (Web.col_timestamp df)
    ∧ length (Web.col_nearby df) = length (Web.col_timestamp df)
    ∧ length (Web.col_total df) = length (Web.col_timestamp df).
Proof.
  intros st stats. subst st stats.
  destruct (web_serial_reader_run rs) as (l & -> & _ & Hs).
  set (st := foldl web_step Web.init l).
  destruct (web_run_series l) as (_ & Ht & Hc & Hn).
  fold st in Ht, Hc, Hn. rewrite Hs in Ht, Hc, Hn. unfold Web.get_dataframe.
  assert (length (Web.connected st) = length (Web.timestamps st)) as Hlc.
  { by rewrite Ht, Hc, !last_n_fmap, !length_fmap. }
  assert (length (Web.nearby st) = length (Web.timestamps st)) as Hln.
  { by rewrite Ht, Hn, !last_n_fmap, !length_fmap. }
  assert (length (zip_with Z.add (Web.connected st) (Web.nearby st))
          = length (Web.timestamps st)) as Hlt.
  { rewrite length_zip_with_l_eq; [done|congruence]. }
  rewrite decide_True by (split_and!; congruence).
  eexists. split; [done|]. simpl. split_and!; try done.
  rewrite Ht. apply length_last_n.
Qed.

Lemma web_hour_key_range now : 0 ≤ Web.hour_key now < 24.
Proof. unfold Web.hour_key. apply Z.mod_pos_bound. lia. Qed.

Lemma set_keys_range k v (d : list (Z * Z)) (P : Z → Prop) :
  P k → Forall P d.*1 → Forall P (Dict.set k v d).*1.
Proof.
  intros Hk Hd. rewrite set_keys. case_decide; [done|].
  apply Forall_app. split; [done|]. by repeat constructor.
Qed.

Lemma web_step_hourly st r :
  Web.hourly_counts (web_step st r)
  = match device_fields (text r) with
    | Some _ =>
        Dict.set (Web.hour_key (clock_device r))
                 (Dict.get (Web.hour_key (clock_device r)) (Web.hourly_counts st) 0 + 1)
                 (Web.hourly_counts st)
    | None => Web.hourly_counts st
    end.
Proof.
  unfold web_step.
  destruct (device_fields (text r)) as [[[mac rssi] s]|],
    (stats_fields (text r)) as [[[[cn nb] pr] co]|]; done.
Qed.

Lemma web_run_hourly rs :
  let d := Web.hourly_counts (foldl web_step Web.init rs) in
  NoDup d.*1 ∧ Forall (fun k => 0 ≤ k < 24) d.*1
  ∧ Forall (fun kc => 1 ≤ kc.2) d
  ∧ Zsum d.*2 = Z.of_nat (length (device_readings rs)).
Proof.
  induction rs as [|r rs IH] using rev_ind.
  { simpl. split_and!; by constructor. }
  simpl in *. destruct IH as (Hnd & Hrange & Hpos & Hsum).
  rewrite foldl_snoc, web_step_hourly, device_readings_snoc.
  destruct (device_fields (text r)); rewrite ?app_nil_r; [|done].
  split_and!.
  - by apply set_keys_NoDup.
  - apply set_keys_range; [apply web_hour_key_range|done].
  - by apply bump_positive.
  - rewrite bump_sum, Hsum, length_app. simpl. lia.
Qed.

(** X21.  The hourly counts of the web dashboard are keyed by the hour
    of the day: the keys are distinct hours from 0 to 23, so there are at
    most 24 of them however long the session lasts; every count is at
    least 1 and the counts add up to the number of device lines the
    reader parsed. *)
Theorem web_hourly_counts_by_hour_of_day rs :
  let d := Web.hourly_counts (Web.serial_reader rs) in
  NoDup d.*1
  ∧ Forall (fun k => 0 ≤ k < 24) d.*1
  ∧ (length d ≤ 24)%nat
  ∧ Forall (fun kc => 1 ≤ kc.2) d
  ∧ Zsum d.*2 = Z.of_nat (length (device_readings (web_device_lines rs))).
Proof.
  intros d. subst d.
  destruct (web_serial_reader_run rs) as (l & -> & Hd & _).
  destruct (web_run_hourly l) as (Hnd & Hrange & Hpos & Hsum).
  rewrite Hd in Hsum. split_and!; try done.
  rewrite <- (length_fmap fst).
  change 24%nat with (Z.to_nat 24). rewrite <- (length_seqZ 0 24).
  apply submseteq_length, NoDup_submseteq; [done|].
  intros k Hk. rewrite Forall_forall in Hrange. apply elem_of_seqZ.
  specialize (Hrange k Hk). lia.
Qed.
